(** * Response compression middleware (package middlewares, compress.go)

    A shallow embedding of [CompressHandlerLevel] and of the helpers it is
    built from: the two pool-index functions, the pool arrays filled by the
    package's [init] functions, the scan over the Accept-Encoding tokens,
    and the [WriteHeader], [Write] and [Push] hooks installed on the
    response writer.

    Go's [int] is modelled as [Z] with 64-bit wrap-around written out, Go
    strings as [string] (byte strings), [http.Header] as a finite map from
    header names to value lists, and the calls the middleware makes on its
    collaborators (the original response writer, the codec, the pools) as a
    trace of events. *)

From Stdlib Require Import ZArith Ascii String List.
From Stdlib Require Import DecimalString DecimalPos DecimalZ.
From stdpp Require Import gmap strings list.

Open Scope Z_scope.

(** ** Machine integers *)

(** Two's-complement wrap-around of a 64-bit Go [int]. *)
Definition wrap (x : Z) : Z := (x + 2 ^ 63) mod 2 ^ 64 - 2 ^ 63.

(** ** Compression levels of the two codec packages

    The constants of github.com/klauspost/compress/{gzip,flate} that
    compress.go refers to. *)

Module gzip.
Definition NoCompression : Z := 0.
Definition BestSpeed : Z := 1.
Definition BestCompression : Z := 9.
Definition DefaultCompression : Z := -1.
End gzip.

Module flate.
Definition NoCompression : Z := 0.
Definition BestSpeed : Z := 1.
Definition BestCompression : Z := 9.
Definition DefaultCompression : Z := -1.
End flate.

(** ** Pool indices *)

(** [gzipPoolIndex] maps a compression level to its index into
    [gzipWriterPools]. *)
Definition gzipPoolIndex (level : Z) : Z :=
  if level =? gzip.DefaultCompression
  then gzip.BestCompression - gzip.BestSpeed + 1
  else wrap (level - gzip.BestSpeed).

(** [flatePoolIndex] maps a compression level to its index into
    [flateWriterPools]. *)
Definition flatePoolIndex (level : Z) : Z :=
  if level =? flate.DefaultCompression
  then flate.BestCompression - flate.BestSpeed + 1
  else wrap (level - flate.BestSpeed).

(** ** Pool arrays

    A [*sync.Pool] slot is [None] while it is nil; a pool is identified by
    the level its [New] function builds writers with. *)

Definition PoolArray := list (option Z).

(** [arr[index] = &sync.Pool{...}]: Go panics when the index is out of
    range, which is [None] here. *)
Definition poolStore (arr : PoolArray) (index : Z) (level : Z) : option PoolArray :=
  if (0 <=? index) && (index <? Z.of_nat (length arr))
  then Some (<[Z.to_nat index := Some level]> arr)
  else None.

(** [arr[index]] followed by a method call on the pool: an index out of
    range panics, and so does a nil slot. *)
Definition poolAt (arr : PoolArray) (index : Z) : option Z :=
  if (0 <=? index) && (index <? Z.of_nat (length arr))
  then mjoin (arr !! Z.to_nat index)
  else None.

Definition addGzipLevelPool (level : Z) (arr : PoolArray) : option PoolArray :=
  poolStore arr (gzipPoolIndex level) level.

Definition addFlateLevelPool (level : Z) (arr : PoolArray) : option PoolArray :=
  poolStore arr (flatePoolIndex level) level.

(** The loop [for i := lo; i <= hi; i++ { add(i) }] of the [init]
    functions. *)
Definition addLevels (add : Z → PoolArray → option PoolArray) (lo hi : Z)
    (arr : PoolArray) : option PoolArray :=
  foldl (λ acc i, acc ≫= add i) (Some arr) (seqZ lo (hi - lo + 1)).

(** [var gzipWriterPools [gzip.BestCompression - gzip.BestSpeed + 2]*sync.Pool]
    after the package's first [init]. *)
Definition initGzipPools : option PoolArray :=
  addLevels addGzipLevelPool gzip.BestSpeed gzip.BestCompression
    (replicate (Z.to_nat (gzip.BestCompression - gzip.BestSpeed + 2)) None)
  ≫= addGzipLevelPool gzip.DefaultCompression.

Definition initFlatePools : option PoolArray :=
  addLevels addFlateLevelPool flate.BestSpeed flate.BestCompression
    (replicate (Z.to_nat (flate.BestCompression - flate.BestSpeed + 2)) None)
  ≫= addFlateLevelPool flate.DefaultCompression.

Definition gzipWriterPools : PoolArray := default [] initGzipPools.
Definition flateWriterPools : PoolArray := default [] initFlatePools.

(** The guard at the top of [CompressHandlerLevel]. *)
Definition normalizeLevel (level : Z) : Z :=
  if (level <? gzip.DefaultCompression) || (level >? gzip.BestCompression)
  then gzip.DefaultCompression
  else level.

(** ** Strings (package strings of the Go library)

    Go strings are byte strings; [strings.TrimSpace] decodes them as UTF-8
    and removes the leading and trailing code points that
    [unicode.IsSpace] accepts. *)

Open Scope string_scope.

Definition byteOf (c : ascii) : N := N_of_ascii c.

(** The table [asciiSpace]: tab, line feed, vertical tab, form feed,
    carriage return, space. *)
Definition asciiSpace (b : N) : bool :=
  ((9 <=? b) && (b <=? 13) || (b =? 32))%N.

(** UTF-8 encodings of the white-space code points U+0085 and U+00A0. *)
Definition spaceRune2 (b1 b2 : N) : bool :=
  ((b1 =? 194) && ((b2 =? 133) || (b2 =? 160)))%N.

(** UTF-8 encodings of U+1680, U+2000..U+200A, U+2028, U+2029, U+202F,
    U+205F and U+3000. *)
Definition spaceRune3 (b1 b2 b3 : N) : bool :=
  ((b1 =? 225) && (b2 =? 154) && (b3 =? 128)
   || (b1 =? 226) && (b2 =? 128)
        && ((128 <=? b3) && (b3 <=? 138) || (b3 =? 168) || (b3 =? 169) || (b3 =? 175))
   || (b1 =? 226) && (b2 =? 129) && (b3 =? 159)
   || (b1 =? 227) && (b2 =? 128) && (b3 =? 128))%N.

(** [strings.TrimLeftFunc(s, unicode.IsSpace)] on the bytes of [s]. *)
Fixpoint trimLeft (l : list ascii) : list ascii :=
  match l with
  | [] => []
  | c1 :: r1 =>
    if asciiSpace (byteOf c1) then trimLeft r1 else
    match r1 with
    | [] => l
    | c2 :: r2 =>
      if spaceRune2 (byteOf c1) (byteOf c2) then trimLeft r2 else
      match r2 with
      | [] => l
      | c3 :: r3 =>
        if spaceRune3 (byteOf c1) (byteOf c2) (byteOf c3) then trimLeft r3 else l
      end
    end
  end.

(** [strings.TrimRightFunc(s, unicode.IsSpace)], on the reversed bytes:
    the last code point is decoded backwards from the end. *)
Fixpoint trimRightRev (l : list ascii) : list ascii :=
  match l with
  | [] => []
  | c1 :: r1 =>
    if asciiSpace (byteOf c1) then trimRightRev r1 else
    match r1 with
    | [] => l
    | c2 :: r2 =>
      if spaceRune2 (byteOf c2) (byteOf c1) then trimRightRev r2 else
      match r2 with
      | [] => l
      | c3 :: r3 =>
        if spaceRune3 (byteOf c3) (byteOf c2) (byteOf c1) then trimRightRev r3 else l
      end
    end
  end.

(** [strings.TrimSpace]. *)
Definition TrimSpace (s : string) : string :=
  string_of_list_ascii
    (rev (trimRightRev (rev (trimLeft (list_ascii_of_string s))))).

(** [strings.Split(s, sep)] for a one-byte separator: the substrings
    between the separators, in order; the empty string splits into one
    empty substring. *)
Fixpoint Split (s : string) (sep : ascii) : list string :=
  match s with
  | EmptyString => [EmptyString]
  | String c r =>
    if Ascii.eqb c sep then EmptyString :: Split r sep
    else match Split r sep with
         | t :: ts => String c t :: ts
         | [] => [String c EmptyString]
         end
  end.

(** [strings.Contains(s, substr)]. *)
Fixpoint Contains (s substr : string) : bool :=
  String.prefix substr s
  || match s with
     | EmptyString => false
     | String _ r => Contains r substr
     end.

(** [strings.Join(elems, sep)] for a one-byte separator. *)
Fixpoint Join (elems : list string) (sep : ascii) : string :=
  match elems with
  | [] => EmptyString
  | [t] => t
  | t :: rest => t ++ String sep (Join rest sep)
  end.

(** The byte [c] occurs in [s]. *)
Fixpoint hasByte (c : ascii) (s : string) : bool :=
  match s with
  | EmptyString => false
  | String c' r => Ascii.eqb c' c || hasByte c r
  end.

(** ** Headers (net/http.Header)

    A header maps a field name to the list of its values. The names this
    package passes are already in canonical form, so
    [CanonicalHeaderKey] is the identity on them. *)

Abbreviation Header := (gmap string (list string)).

(** [h.Get(key)]: the first value of the field, or the empty string. *)
Definition Header_Get (h : Header) (key : string) : string :=
  match h !! key with
  | Some (v :: _) => v
  | _ => ""
  end.

(** [h.Set(key, value)]. *)
Definition Header_Set (h : Header) (key value : string) : Header :=
  <[key := [value]]> h.

(** [h.Add(key, value)]. *)
Definition Header_Add (h : Header) (key value : string) : Header :=
  <[key := (default [] (h !! key) ++ [value])%list]> h.

(** [h.Del(key)]. *)
Definition Header_Del (h : Header) (key : string) : Header :=
  delete key h.

Definition deflate : string := "deflate".
Definition gzipa : string := "gzip".

(** ** Requests, push options, and the middleware's collaborators *)

Abbreviation bytes := (list Byte.byte).

(** [http.Request], as far as the middleware reads it. *)
Record Request := {
  req_Method : string;
  req_Header : Header
}.

(** [http.PushOptions]; a nil [Header] map is [None]. *)
Record PushOptions := {
  po_Method : string;
  po_Header : option Header
}.

Inductive Encoding := Gzip | Deflate.

(** What a codec is [Reset] to: the original response writer or
    [io.Discard]. *)
Inductive Sink := OrigWriter | Discard.

(** The calls made on the original (undecorated) response writer, on the
    codec and on the pools, in the order they are made. *)
Inductive Event :=
| WriteHeaderCall (code : Z)
| WriteCall (b : bytes)
| PushCall (target : string) (opts : option PushOptions)
| PoolGet (e : Encoding) (index : Z)
| PoolPut (e : Encoding) (index : Z)
| CodecReset (e : Encoding) (k : Sink)
| CodecWrite (e : Encoding) (b : bytes)
| CodecClose (e : Encoding).

(** The original [http.ResponseWriter]: its header map and the calls it
    and the codec machinery have received. *)
Record ResponseWriter := {
  rw_header : Header;
  rw_trace : list Event
}.

(** One invocation of the handler function returned by
    [CompressHandlerLevel]: the response header map (one map, reached
    through [w.Header()] and [rrw.Header()] alike), the hooks that decorate
    [w], the captured variable [isStream], the deferred clean-ups, and the
    calls made so far. *)
Record State := {
  header : Header;
  wrapped : option Encoding;
  isStream : bool;
  deferred : list (Encoding * Z);
  trace : list Event
}.

Definition enter (w : ResponseWriter) : State :=
  {| header := rw_header w; wrapped := None; isStream := false;
     deferred := []; trace := rw_trace w |}.

Definition setHeader (h : Header) (c : State) : State :=
  {| header := h; wrapped := wrapped c; isStream := isStream c;
     deferred := deferred c; trace := trace c |}.

Definition emit (evs : list Event) (c : State) : State :=
  {| header := header c; wrapped := wrapped c; isStream := isStream c;
     deferred := deferred c; trace := (trace c ++ evs)%list |}.

Definition setStream (b : bool) (c : State) : State :=
  {| header := header c; wrapped := wrapped c; isStream := b;
     deferred := deferred c; trace := trace c |}.

(** A handler, as the sequence of calls it makes on the writer it is
    given. Header names are given in canonical form. *)
Inductive Action :=
| ASet (key value : string)
| AAdd (key value : string)
| ADel (key : string)
| AWriteHeader (code : Z)
| AWrite (b : bytes)
| APush (target : string) (opts : option PushOptions).

(** The result of a call that may panic on an array index: the state
    reached, normally or at the panic. *)
Inductive Outcome :=
| Done (c : State)
| Panic (c : State).

Definition stateOf (o : Outcome) : State :=
  match o with Done c | Panic c => c end.

(** What a call of the [Push] hook leaves behind: the hook's own variable
    [opts] when it returns, the caller's options object ([None] for a nil
    pointer), the error returned ([None] for nil), and the state. *)
Record PushResult := {
  pr_opts : option PushOptions;
  pr_caller : option PushOptions;
  pr_err : option string;
  pr_state : State
}.

(** Number of events of a trace that satisfy [p]. *)
Fixpoint countEv (p : Event → bool) (tr : list Event) : nat :=
  match tr with
  | [] => 0%nat
  | ev :: tr' => ((if p ev then 1 else 0) + countEv p tr')%nat
  end.

Definition isPoolGet (ev : Event) : bool :=
  match ev with PoolGet _ _ => true | _ => false end.
Definition isPoolPut (ev : Event) : bool :=
  match ev with PoolPut _ _ => true | _ => false end.
Definition isCodecWrite (ev : Event) : bool :=
  match ev with CodecWrite _ _ => true | _ => false end.
Definition isWriteHeaderCall (ev : Event) : bool :=
  match ev with WriteHeaderCall _ => true | _ => false end.
Definition isPushCall (ev : Event) : bool :=
  match ev with PushCall _ _ => true | _ => false end.

(** The chunks written directly to the original writer, in order. *)
Fixpoint rawWrites (tr : list Event) : list bytes :=
  match tr with
  | [] => []
  | WriteCall b :: tr' => b :: rawWrites tr'
  | _ :: tr' => rawWrites tr'
  end.

(** The chunks a handler writes, in order. *)
Fixpoint writesOf (handler : list Action) : list bytes :=
  match handler with
  | [] => []
  | AWrite b :: rest => b :: writesOf rest
  | _ :: rest => writesOf rest
  end.

(** A content sniffer that answers the fallback media type, as
    [http.DetectContentType] does for data it does not recognise. *)
Definition sniffOctet (_ : bytes) : string := "application/octet-stream".

(** A recorder that has received nothing yet, a GET request with one
    Accept-Encoding value, and a five-byte chunk: the fixtures of
    compress_test.go. *)
Definition emptyWriter : ResponseWriter := {| rw_header := ∅; rw_trace := [] |}.

Definition requestAccepting (ae : string) : Request :=
  {| req_Method := "GET"; req_Header := {["Accept-Encoding" := [ae]]} |}.

Definition hello : bytes := list_byte_of_string "hello".

(** ** Calls on a response writer *)

(** One call of a handler, received by the response writer [w] itself. *)
Definition callOn (a : Action) (w : ResponseWriter) : ResponseWriter :=
  match a with
  | ASet k v => {| rw_header := Header_Set (rw_header w) k v; rw_trace := rw_trace w |}
  | AAdd k v => {| rw_header := Header_Add (rw_header w) k v; rw_trace := rw_trace w |}
  | ADel k => {| rw_header := Header_Del (rw_header w) k; rw_trace := rw_trace w |}
  | AWriteHeader code =>
    {| rw_header := rw_header w; rw_trace := (rw_trace w ++ [WriteHeaderCall code])%list |}
  | AWrite b =>
    {| rw_header := rw_header w; rw_trace := (rw_trace w ++ [WriteCall b])%list |}
  | APush target opts =>
    {| rw_header := rw_header w; rw_trace := (rw_trace w ++ [PushCall target opts])%list |}
  end.

(** A sequence of calls received by [w]. *)
Definition runOn (calls : list Action) (w : ResponseWriter) : ResponseWriter :=
  foldl (λ w a, callOn a w) w calls.

(** The status codes passed to [WriteHeader], in order. *)
Fixpoint headerCodes (tr : list Event) : list Z :=
  match tr with
  | [] => []
  | WriteHeaderCall code :: tr' => code :: headerCodes tr'
  | _ :: tr' => headerCodes tr'
  end.

(** The chunks given to the codec, in order. *)
Fixpoint codecWrites (tr : list Event) : list bytes :=
  match tr with
  | [] => []
  | CodecWrite _ b :: tr' => b :: codecWrites tr'
  | _ :: tr' => codecWrites tr'
  end.

(** The trace without the [WriteHeader] calls. *)
Fixpoint withoutHeaderCalls (tr : list Event) : list Event :=
  match tr with
  | [] => []
  | WriteHeaderCall _ :: tr' => withoutHeaderCalls tr'
  | ev :: tr' => ev :: withoutHeaderCalls tr'
  end.

(** The status codes a sequence of calls passes to [WriteHeader]. *)
Fixpoint codesOf (calls : list Action) : list Z :=
  match calls with
  | [] => []
  | AWriteHeader code :: rest => code :: codesOf rest
  | _ :: rest => codesOf rest
  end.

(** The sink of the last [Reset] of the codec, if any. *)
Fixpoint lastSink (tr : list Event) : option Sink :=
  match tr with
  | [] => None
  | CodecReset _ k :: tr' =>
    match lastSink tr' with Some k' => Some k' | None => Some k end
  | _ :: tr' => lastSink tr'
  end.

(** The single [Add] calls for the entries of header maps, flattened. *)
Definition flatEntries (kvs : list (string * list string)) : list (string * string) :=
  flat_map (λ kv, map (pair kv.1) kv.2) kvs.

(** The values a flat list of additions carries for field [key]. *)
Definition addedFor (key : string) (adds : list (string * string)) : list string :=
  map snd (filter (λ kv, kv.1 = key) adds).

(** The status codes of net/http that this package names. *)
Module http.
Definition StatusOK : Z := 200.
Definition StatusBadRequest : Z := 400.
Definition StatusUnauthorized : Z := 401.
Definition StatusForbidden : Z := 403.
Definition StatusNotFound : Z := 404.
Definition StatusMethodNotAllowed : Z := 405.
Definition StatusUnsupportedMediaType : Z := 415.
Definition StatusInternalServerError : Z := 500.
End http.

(** The verb [%d] of package fmt on an [int]. *)
Definition formatInt (z : Z) : string :=
  NilZero.string_of_int (Z.to_int z).

(** ** Errors (error.go) *)

(** A non-nil Go [error]: an [*httpError] of this package, or an error of
    another type with its message, which may wrap another error. A nil
    error is [None]. *)
Inductive error :=
| httpError (statusCode : Z) (body : string)
| foreignError (msg : string)
| wrapError (msg : string) (wrapped : error).

(** [e.Error()]; for [*httpError] it is [fmt.Sprintf("[%d] %s", ...)]. *)
Definition errorMessage (e : error) : string :=
  match e with
  | httpError statusCode body => "[" ++ formatInt statusCode ++ "] " ++ body
  | foreignError msg => msg
  | wrapError msg _ => msg
  end.

Definition Error (statusCode : Z) (body : string) : option error :=
  Some (httpError statusCode body).

Definition ErrStatusCode (e : option error) : Z :=
  match e with
  | None => 0
  | Some (httpError statusCode _) => statusCode
  | Some _ => 0
  end.

Definition ErrBody (e : option error) : string :=
  match e with
  | None => ""
  | Some (httpError _ body) => body
  | Some _ => ""
  end.

Definition IsError (e : option error) (code : Z) : bool :=
  match e with
  | None => false
  | Some (httpError statusCode _) => (statusCode =? code)%Z
  | Some _ => false
  end.

Definition IsBadRequest (e : option error) : bool := IsError e http.StatusBadRequest.
Definition IsUnauthorized (e : option error) : bool := IsError e http.StatusUnauthorized.
Definition IsForbidden (e : option error) : bool := IsError e http.StatusForbidden.
Definition IsNotFound (e : option error) : bool := IsError e http.StatusNotFound.

Definition IsServerError (e : option error) : bool :=
  match e with
  | None => false
  | Some (httpError statusCode _) => (statusCode >=? http.StatusInternalServerError)%Z
  | Some _ => false
  end.

(** ** Request validation (validate.go) *)

Definition ContentTypeJSON : string := "application/json".
Definition ContentTypeYAML : string := "application/yaml".

(** What [io.ReadAll(r.Body)] returns. *)
Inductive ReadResult :=
| ReadOK (body : string)
| ReadFailed (err : error).

(** [rw.WriteHeader(code)] on the writer itself. *)
Definition rwWriteHeader (code : Z) (rw : ResponseWriter) : ResponseWriter :=
  callOn (AWriteHeader code) rw.

(** [RequireJSONBody(rw, r)], with the outcome of reading [r.Body]. The
    result is the body returned ([None] for nil), the error, and the
    writer. *)
Definition RequireJSONBody (rw : ResponseWriter) (r : Request) (read : ReadResult)
    : option string * option error * ResponseWriter :=
  match read with
  | ReadFailed err =>
    (None,
     Some (wrapError ("could not read request body: " ++ errorMessage err) err),
     rwWriteHeader http.StatusBadRequest rw)
  | ReadOK body =>
    let ct := Header_Get (req_Header r) "Content-Type" in
    if negb (String.prefix ContentTypeJSON ct) then
      (None,
       Some (foreignError
         ("unsupported content type " ++ ct ++ ", only " ++ ContentTypeJSON
          ++ " is supported")),
       rwWriteHeader http.StatusUnsupportedMediaType rw)
    else
      let body := TrimSpace body in
      if (String.length body <? 3)%nat then
        (None, Some (foreignError "request body is required"),
         rwWriteHeader http.StatusBadRequest rw)
      else
        match body with
        | String c _ =>
          if negb (Ascii.eqb c "{") && negb (Ascii.eqb c "[") then
            (None,
             Some (foreignError
               "request body should contain a JSON Object `{}` or `[]`"),
             rwWriteHeader http.StatusBadRequest rw)
          else (Some body, None, rw)
        | EmptyString => (Some body, None, rw)
        end
  end.

(** The loop of [AllowMethods]: does some element equal [r.Method]? *)
Fixpoint methodMatched (method : string) (methods : list string) : bool :=
  match methods with
  | [] => false
  | m :: rest => if String.eqb method m then true else methodMatched method rest
  end.

(** [AllowMethods(methods, rw, r)]. *)
Definition AllowMethods (methods : list string) (rw : ResponseWriter) (r : Request)
    : option error * ResponseWriter :=
  if negb (methodMatched (req_Method r) methods) then
    let joined := Join methods "," in
    (Some (foreignError
       ("invalid method " ++ req_Method r ++ " only " ++ joined
        ++ " requests are allowed")),
     rwWriteHeader http.StatusMethodNotAllowed
       (callOn (AAdd "Allow" joined) rw))
  else (None, rw).

(** The first step of trimming on the left: the bytes begin with a
    white-space code point. *)
Definition startsSpace (l : list ascii) : bool :=
  match l with
  | [] => false
  | c1 :: r1 =>
    asciiSpace (byteOf c1)
    || match r1 with
       | [] => false
       | c2 :: r2 =>
         spaceRune2 (byteOf c1) (byteOf c2)
         || match r2 with
            | [] => false
            | c3 :: _ => spaceRune3 (byteOf c1) (byteOf c2) (byteOf c3)
            end
       end
  end.

(** The same at the right end, on the reversed bytes. *)
Definition endsSpaceRev (l : list ascii) : bool :=
  match l with
  | [] => false
  | c1 :: r1 =>
    asciiSpace (byteOf c1)
    || match r1 with
       | [] => false
       | c2 :: r2 =>
         spaceRune2 (byteOf c2) (byteOf c1)
         || match r2 with
            | [] => false
            | c3 :: _ => spaceRune3 (byteOf c3) (byteOf c2) (byteOf c1)
            end
       end
  end.

(** ** Response helpers (writers.go) *)

(** The double quote byte. *)
Definition dquote : string := String (ascii_of_nat 34) EmptyString.

(** The calls [w.Header().Add(k, val)] for the entries of one header map,
    in the order the [range] loop visits them. *)
Definition addHeaderCalls (kvs : list (string * list string)) : list Action :=
  flat_map (λ kv, map (AAdd kv.1) kv.2) kvs.

Section Writers.

(** The verb [%q] of package fmt on a string. *)
Variable quote : string → string.

(** [textproto.CanonicalMIMEHeaderKey], which [http.Header.Add] applies
    to the key it is given. *)
Variable CanonicalMIMEHeaderKey : string → string.

(** The entries of a caller's header map, as [w.Header().Add(k, val)]
    files them: under the canonical form of their keys. *)
Definition canonicalEntries (kvs : list (string * list string))
    : list (string * list string) :=
  map (λ kv, (CanonicalMIMEHeaderKey kv.1, kv.2)) kvs.

(** The text [fmt.Fprintf] writes in [JSONError]. *)
Definition JSONError_body (msg : string) (code : Z) : string :=
  "{" ++ dquote ++ "message" ++ dquote ++ ":" ++ quote msg
  ++ "," ++ dquote ++ "code" ++ dquote ++ ":" ++ formatInt code ++ "}".

(** [JSONError(w, error, code, headers...)] as the calls it makes on [w];
    [entries] holds, for every header map, its entries in the order the
    [range] loop visits them, each under the canonical form of its key. *)
Definition JSONError_calls (msg : string) (code : Z)
    (entries : list (list (string * list string))) : list Action :=
  (flat_map addHeaderCalls entries
   ++ [ASet "Content-Type" "application/json; charset=utf-8";
       ASet "X-Content-Type-Options" "nosniff";
       AWriteHeader (if (code >? 0)%Z then code else http.StatusInternalServerError);
       AWrite (list_byte_of_string (JSONError_body msg code))])%list.

(** [JSONError] with every map visited in the order of its entry list.
    The keys of a caller's map need not be canonical, so two of them may
    name the same field. *)
Definition JSONError (msg : string) (code : Z) (headers : list Header) : list Action :=
  JSONError_calls msg code (map (λ h, canonicalEntries (map_to_list h)) headers).

(** [JSON(w, data, code...)] as the calls it makes on [w]; [encoded] is
    what the JSON encoder produces for [data], [None] when it fails. *)
Definition JSON (encoded : option bytes) (code : list Z) : list Action :=
  let status := match code with c :: _ => c | [] => http.StatusOK end in
  ([ASet "Content-Type" "application/json; charset=utf-8";
    ASet "X-Content-Type-Options" "nosniff";
    AWriteHeader status]
   ++ match encoded with Some b => [AWrite b] | None => [] end)%list.

(** ** Panic recovery (RecoverRendered) *)

(** Conversion to [int32]. *)
Definition wrap32 (x : Z) : Z := ((x + 2 ^ 31) mod 2 ^ 32 - 2 ^ 31)%Z.

(** The value a handler panics with: an [error], or anything else. *)
Inductive PanicValue :=
| PanicError (err : error)
| PanicOther.

(** A [PanicRenderer], as the calls it makes on the writer for a message
    and a status code. *)
Definition PanicRenderer := string → Z → list Action.

(** The original writer and the captured variable [statusWritten]. *)
Record RecoverState := {
  rs_writer : ResponseWriter;
  statusWritten : Z
}.

(** One call on the writer decorated with the [WriteHeader] hook:
    [CompareAndSwapInt32(&statusWritten, -1, int32(code))] guards the
    forwarding. *)
Definition recoverCall (a : Action) (s : RecoverState) : RecoverState :=
  match a with
  | AWriteHeader code =>
    if (statusWritten s =? -1)%Z
    then {| rs_writer := callOn a (rs_writer s); statusWritten := wrap32 code |}
    else s
  | _ => {| rs_writer := callOn a (rs_writer s); statusWritten := statusWritten s |}
  end.

Definition recoverRun (calls : list Action) (s : RecoverState) : RecoverState :=
  foldl (λ s a, recoverCall a s) s calls.

(** The calls of the deferred function: nothing when [next] returned,
    otherwise the renderer's calls, with the stack text as message when
    the panic value is an [error] and the status text of 500 otherwise.
    A nil [renderPanic] is [JSONError], which is called without header
    maps. *)
Definition panicCalls (renderPanic : option PanicRenderer)
    (panic : option PanicValue) (stack : string) : list Action :=
  let renderPanic :=
    match renderPanic with
    | Some f => f
    | None => λ msg code, JSONError_calls msg code []
    end in
  match panic with
  | None => []
  | Some (PanicError _) => renderPanic stack http.StatusInternalServerError
  | Some PanicOther =>
    renderPanic "Internal Server Error" http.StatusInternalServerError
  end.

(** [RecoverRendered(lg, renderPanic)(next).ServeHTTP(w, r)]: [next] makes
    its calls and then returns or panics with [panic]; [stack] is the text
    [runtime.Stack] gives. *)
Definition RecoverRendered (renderPanic : option PanicRenderer)
    (next : list Action) (panic : option PanicValue) (stack : string)
    (w : ResponseWriter) : RecoverState :=
  recoverRun (panicCalls renderPanic panic stack)
    (recoverRun next {| rs_writer := w; statusWritten := -1 |}).

(** [Recover(lg)]. *)
Definition Recover (next : list Action) (panic : option PanicValue)
    (stack : string) (w : ResponseWriter) : RecoverState :=
  RecoverRendered None next panic stack w.

End Writers.

(** A quoting function for examples: the text between double quotes, as
    [%q] gives for text without special characters. *)
Definition quotePlain (s : string) : string := dquote ++ s ++ dquote.

(** The canonical form of a header key made of letters, digits and
    hyphens: the first letter and every letter after a hyphen in upper
    case, the other letters in lower case. *)
Fixpoint canonicalFrom (upper : bool) (s : string) : string :=
  match s with
  | EmptyString => EmptyString
  | String c r =>
    let b := byteOf c in
    let c' :=
      if upper && (97 <=? b)%N && (b <=? 122)%N then ascii_of_N (b - 32)
      else if negb upper && (65 <=? b)%N && (b <=? 90)%N then ascii_of_N (b + 32)
      else c in
    String c' (canonicalFrom (Ascii.eqb c' "-") r)
  end.

Definition canonicalPlain (s : string) : string := canonicalFrom true s.

(** A POST request that declares a JSON body. *)
Definition jsonRequest : Request :=
  {| req_Method := "POST";
     req_Header := {["Content-Type" := ["application/json; charset=utf-8"]]} |}.

Section Compress.

(** [http.DetectContentType] of the Go library. *)
Variable DetectContentType : bytes → string.

(** ** The hooks *)

(** The [WriteHeader] hook (the same text in the gzip and the deflate
    case). *)
Definition hookWriteHeader (code : Z) (c : State) : State :=
  emit [WriteHeaderCall code]
    (setHeader (Header_Del (header c) "Content-Length") c).

(** The first statement of the [Write] hook: sniff the content type of
    the chunk when the header has none. *)
Definition ensureContentType (b : bytes) (h : Header) : Header :=
  if String.eqb (Header_Get h "Content-Type") ""
  then Header_Set h "Content-Type" (DetectContentType b)
  else h.

(** The [Write] hook; the two cases differ only in the codec [e] they
    close over. *)
Definition hookWrite (e : Encoding) (b : bytes) (c : State) : State :=
  let h := ensureContentType b (header c) in
  if isStream c
     || Contains (Header_Get h "Content-Type") "text/event-stream"
     || String.eqb (Header_Get h "Transfer-Encoding") "chunked"
  then
    emit [CodecReset e Discard; WriteCall b]
      (setHeader (Header_Del (Header_Del h "Content-Encoding") "Vary")
         (setStream true c))
  else
    emit [CodecWrite e b] (setHeader (Header_Del h "Content-Length") c).

(** The [Push] hook of the deflate case. With nil options the new
    object is assigned to the parameter, which the caller does not see;
    otherwise [opts] points to the caller's object and the two agree. *)
Definition hookPush (target : string) (opts : option PushOptions) (c : State)
    : PushResult :=
  match opts with
  | None =>
    let opts' := {| po_Method := "";
                    po_Header := Some {["Accept-Encoding" := ["gzip"]]} |} in
    {| pr_opts := Some opts'; pr_caller := None; pr_err := None; pr_state := c |}
  | Some o =>
    match po_Header o with
    | None =>
      let o' := {| po_Method := po_Method o;
                   po_Header := Some {["Accept-Encoding" := ["gzip"]]} |} in
      {| pr_opts := Some o'; pr_caller := Some o'; pr_err := None; pr_state := c |}
    | Some h =>
      if String.eqb (Header_Get h "Accept-Encoding") ""
      then
        let o' := {| po_Method := po_Method o;
                     po_Header := Some (Header_Add h "Accept-Encoding" "gzip") |} in
        {| pr_opts := Some o'; pr_caller := Some o'; pr_err := None; pr_state := c |}
      else
        {| pr_opts := Some o; pr_caller := Some o; pr_err := None; pr_state := c |}
    end
  end.

(** One call of a handler on the original, undecorated writer. *)
Definition direct (a : Action) (c : State) : State :=
  match a with
  | ASet k v => setHeader (Header_Set (header c) k v) c
  | AAdd k v => setHeader (Header_Add (header c) k v) c
  | ADel k => setHeader (Header_Del (header c) k) c
  | AWriteHeader code => emit [WriteHeaderCall code] c
  | AWrite b => emit [WriteCall b] c
  | APush target opts => emit [PushCall target opts] c
  end.

(** One call of a handler on the writer decorated by [httpsnoop.Wrap]
    with the hooks of case [e]: methods without a hook pass through. *)
Definition hooked (e : Encoding) (a : Action) (c : State) : State :=
  match a with
  | AWriteHeader code => hookWriteHeader code c
  | AWrite b => hookWrite e b c
  | APush target opts =>
    match e with
    | Deflate => pr_state (hookPush target opts c)
    | Gzip => direct a c
    end
  | _ => direct a c
  end.

(** One call of the handler on [w]. *)
Definition step (a : Action) (c : State) : State :=
  match wrapped c with
  | Some e => hooked e a c
  | None => direct a c
  end.

(** [h.ServeHTTP(w, r)]. *)
Definition ServeHTTP (handler : list Action) (c : State) : State :=
  foldl (λ c a, step a c) c handler.

(** The same handler run on the original writer, without any
    middleware. *)
Definition serveDirect (handler : list Action) (c : State) : State :=
  foldl (λ c a, direct a c) c handler.

(** ** The scan over the Accept-Encoding tokens *)

(** [case gzipa:] up to [break L]. *)
Definition gzipCase (level : Z) (c : State) : Outcome :=
  let h := Header_Add (Header_Set (header c) "Content-Encoding" gzipa)
             "Vary" "Accept-Encoding" in
  let index := gzipPoolIndex level in
  match poolAt gzipWriterPools index with
  | None => Panic (setHeader h c)
  | Some _ =>
    Done {| header := h; wrapped := Some Gzip; isStream := false;
            deferred := (Gzip, index) :: deferred c;
            trace := (trace c ++ [PoolGet Gzip index; CodecReset Gzip OrigWriter])%list |}
  end.

(** [case deflate:] up to [break L]. *)
Definition deflateCase (level : Z) (c : State) : Outcome :=
  let h := Header_Add (Header_Set (header c) "Content-Encoding" deflate)
             "Vary" "Accept-Encoding" in
  let index := flatePoolIndex level in
  match poolAt flateWriterPools index with
  | None => Panic (setHeader h c)
  | Some _ =>
    Done {| header := h; wrapped := Some Deflate; isStream := false;
            deferred := (Deflate, index) :: deferred c;
            trace := (trace c ++ [PoolGet Deflate index; CodecReset Deflate OrigWriter])%list |}
  end.

(** The labelled loop [L: for enc := range ... { switch ... }]. *)
Fixpoint scan (level : Z) (toks : list string) (c : State) : Outcome :=
  match toks with
  | [] => Done c
  | enc :: rest =>
    let t := TrimSpace enc in
    if String.eqb t gzipa then gzipCase level c
    else if String.eqb t deflate then deflateCase level c
    else scan level rest c
  end.

(** The deferred functions, last registered first: close the codec, put
    it back into its pool. *)
Definition runDeferred (c : State) : State :=
  foldl (λ c d, emit [CodecClose d.1; PoolPut d.1 d.2] c) c (deferred c).

(** [CompressHandlerLevel(h, level)] serving request [r] on writer [w]. *)
Definition CompressHandlerLevel (handler : list Action) (level : Z)
    (r : Request) (w : ResponseWriter) : Outcome :=
  let level := normalizeLevel level in
  match scan level (Split (Header_Get (req_Header r) "Accept-Encoding") ",") (enter w) with
  | Done c => Done (runDeferred (ServeHTTP handler c))
  | Panic c => Panic c
  end.

(** [CompressHandler(h)]. *)
Definition CompressHandler (handler : list Action) : Request → ResponseWriter → Outcome :=
  CompressHandlerLevel handler gzip.DefaultCompression.

(** ** Vocabulary of the specification *)

(** The levels the pools are built for: the default level and the
    explicit levels from best speed to best compression. *)
Definition validLevel (level : Z) : Prop :=
  level = gzip.DefaultCompression
  ∨ (gzip.BestSpeed ≤ level ≤ gzip.BestCompression)%Z.

Definition encodingName (e : Encoding) : string :=
  match e with Gzip => gzipa | Deflate => deflate end.

Definition encCase (e : Encoding) : Z → State → Outcome :=
  match e with Gzip => gzipCase | Deflate => deflateCase end.

(** A token of the Accept-Encoding value is supported when, trimmed, it
    is exactly [gzip] or [deflate]. *)
Definition supported (tok : string) : Prop :=
  TrimSpace tok = gzipa ∨ TrimSpace tok = deflate.


(** The scan over [toks] selects encoding [e]: it runs the case of [e],
    once, and nothing else. *)
Definition selects (level : Z) (toks : list string) (c : State) (e : Encoding) : Prop :=
  scan level toks c = encCase e level c.

(** The write of [b] in state [c] meets the streaming condition of the
    specification. *)
Definition streamingCondition (b : bytes) (c : State) : Prop :=
  isStream c = true
  ∨ Contains (Header_Get (ensureContentType b (header c)) "Content-Type")
      "text/event-stream" = true
  ∨ Header_Get (ensureContentType b (header c)) "Transfer-Encoding" = "chunked".

(** The classification of the specification for the write of [b] in
    state [c]: the flag is already set, or the Content-Type, sniffed from
    the chunk when the header has none, contains text/event-stream, or
    Transfer-Encoding is chunked. *)
Definition classifiedStreaming (b : bytes) (c : State) : Prop :=
  let contentType :=
    if String.eqb (Header_Get (header c) "Content-Type") ""
    then DetectContentType b
    else Header_Get (header c) "Content-Type" in
  isStream c = true
  ∨ Contains contentType "text/event-stream" = true
  ∨ Header_Get (header c) "Transfer-Encoding" = "chunked".

(** The response header after the case of [e] has announced the
    encoding. *)
Definition announced (e : Encoding) (h : Header) : Header :=
  Header_Add (Header_Set h "Content-Encoding" (encodingName e))
    "Vary" "Accept-Encoding".

(** The pool slot of level [level] for encoding [e]. *)
Definition poolIndex (e : Encoding) (level : Z) : Z :=
  match e with
  | Gzip => gzipPoolIndex level
  | Deflate => flatePoolIndex level
  end.


(** The values of field [key], as Go's [h[key]] gives them. *)
Definition values (h : Header) (key : string) : list string :=
  default [] (h !! key).

(** The header map of push options, empty when it is nil. *)
Definition optsHeader (o : PushOptions) : Header :=
  default ∅ (po_Header o).

(** The header map behind an options pointer, empty when the pointer or
    the map is nil. *)
Definition optionsHeader (opts : option PushOptions) : Header :=
  match opts with
  | Some o => optsHeader o
  | None => ∅
  end.

(** The action touches header field [key]. *)
Definition touches (key : string) (a : Action) : bool :=
  match a with
  | ASet k _ | AAdd k _ | ADel k => String.eqb k key
  | _ => false
  end.

(** [p] holds of no call that a handler can make reach the original
    writer. *)
Definition internalEv (p : Event → bool) : Prop :=
  (∀ code, p (WriteHeaderCall code) = false)
  ∧ (∀ b, p (WriteCall b) = false)
  ∧ (∀ t o, p (PushCall t o) = false).

(** [p] holds of no call that results from a handler's call, on the
    decorated writer or on the original one. *)
Definition handlerSilent (p : Event → bool) : Prop :=
  internalEv p
  ∧ (∀ e k, p (CodecReset e k) = false)
  ∧ (∀ e b, p (CodecWrite e b) = false).

(** ** Levels and pool indices *)

Lemma wrap_small (x : Z) : (- 2 ^ 63 ≤ x < 2 ^ 63)%Z → wrap x = x.
Proof.
  intros Hx. unfold wrap.
  rewrite Z.mod_small by lia. lia.
Qed.

Lemma gzipPoolIndex_explicit (level : Z) :
  (gzip.BestSpeed ≤ level ≤ gzip.BestCompression)%Z →
  gzipPoolIndex level = (level - gzip.BestSpeed)%Z.
Proof.
  unfold gzipPoolIndex, gzip.BestSpeed, gzip.BestCompression, gzip.DefaultCompression.
  intros Hl. destruct (Z.eqb_spec level (-1)) as [->|_]; [lia|].
  apply wrap_small; lia.
Qed.

Lemma flatePoolIndex_gzipPoolIndex (level : Z) :
  flatePoolIndex level = gzipPoolIndex level.
Proof. reflexivity. Qed.

Lemma pools_length :
  length gzipWriterPools = 10%nat ∧ length flateWriterPools = 10%nat.
Proof. split; reflexivity. Qed.

(** Both [init] functions run without a panic and leave no nil slot. *)
Lemma init_pools :
  initGzipPools = Some gzipWriterPools
  ∧ initFlatePools = Some flateWriterPools
  ∧ Forall is_Some gzipWriterPools
  ∧ Forall is_Some flateWriterPools.
Proof.
  split; [reflexivity|]. split; [reflexivity|].
  split; vm_compute; repeat constructor; eauto.
Qed.

(** The valid levels are exactly those some pool was added for. *)
Lemma validLevel_pools (level : Z) :
  (validLevel level ↔ In (Some level) gzipWriterPools)
  ∧ (validLevel level ↔ In (Some level) flateWriterPools).
Proof.
  assert (H : validLevel level ↔
    In (Some level)
      [Some 1%Z; Some 2%Z; Some 3%Z; Some 4%Z; Some 5%Z; Some 6%Z; Some 7%Z;
       Some 8%Z; Some 9%Z; Some (-1)%Z]).
  { unfold validLevel, gzip.BestSpeed, gzip.BestCompression, gzip.DefaultCompression.
    simpl. split.
    - intros Hv.
      assert (Hc : (level = 1 ∨ level = 2 ∨ level = 3 ∨ level = 4 ∨ level = 5
        ∨ level = 6 ∨ level = 7 ∨ level = 8 ∨ level = 9 ∨ level = -1)%Z) by lia.
      repeat (destruct Hc as [->|Hc]; [tauto|]). subst. tauto.
    - intros Hin.
      repeat (destruct Hin as [Heq|Hin]; [injection Heq as <-; lia|]).
      destruct Hin. }
  split; exact H.
Qed.

Lemma validLevel_cases (level : Z) :
  validLevel level →
  level = (-1)%Z ∨ level = 1%Z ∨ level = 2%Z ∨ level = 3%Z ∨ level = 4%Z
  ∨ level = 5%Z ∨ level = 6%Z ∨ level = 7%Z ∨ level = 8%Z ∨ level = 9%Z.
Proof.
  unfold validLevel, gzip.BestSpeed, gzip.BestCompression, gzip.DefaultCompression.
  lia.
Qed.

Lemma gzipPoolIndex_valid (level : Z) :
  validLevel level →
  gzipPoolIndex level = (if level =? -1 then 9 else level - 1)%Z.
Proof.
  intros Hv. destruct (validLevel_cases level Hv) as [->|Hl].
  - reflexivity.
  - repeat (destruct Hl as [->|Hl]; [reflexivity|]). subst. reflexivity.
Qed.

Lemma poolAt_valid (level : Z) :
  validLevel level →
  poolAt gzipWriterPools (gzipPoolIndex level) = Some level
  ∧ poolAt flateWriterPools (flatePoolIndex level) = Some level.
Proof.
  intros Hv. destruct (validLevel_cases level Hv) as [->|Hl].
  - split; reflexivity.
  - repeat (destruct Hl as [->|Hl]; [split; reflexivity|]). subst. split; reflexivity.
Qed.

Lemma normalizeLevel_out_of_range (level : Z) :
  (level < gzip.DefaultCompression ∨ gzip.BestCompression < level)%Z →
  normalizeLevel level = gzip.DefaultCompression.
Proof.
  unfold normalizeLevel. intros Hl.
  destruct (Z.ltb_spec level gzip.DefaultCompression); [reflexivity|].
  destruct (Z.gtb_spec level gzip.BestCompression); [reflexivity|]. lia.
Qed.

Lemma normalizeLevel_in_range (level : Z) :
  (gzip.DefaultCompression ≤ level ≤ gzip.BestCompression)%Z →
  normalizeLevel level = level.
Proof.
  unfold normalizeLevel. intros Hl.
  destruct (Z.ltb_spec level gzip.DefaultCompression); [lia|].
  destruct (Z.gtb_spec level gzip.BestCompression); [lia|]. reflexivity.
Qed.

(** C6. For gzip and for deflate, the level-to-index function sends every
    explicit level L between best speed and best compression to
    L - BestSpeed and the default level to the slot right after the
    best-compression slot; on the valid levels (the default level and the
    explicit ones) it is one-to-one, lands inside the pool array, and
    reaches every index of the pool array. *)
Theorem poolIndex_bijection :
  (∀ L : Z, (gzip.BestSpeed ≤ L ≤ gzip.BestCompression)%Z →
     gzipPoolIndex L = (L - gzip.BestSpeed)%Z
     ∧ flatePoolIndex L = (L - flate.BestSpeed)%Z)
  ∧ gzipPoolIndex gzip.DefaultCompression
      = (gzipPoolIndex gzip.BestCompression + 1)%Z
  ∧ flatePoolIndex flate.DefaultCompression
      = (flatePoolIndex flate.BestCompression + 1)%Z
  ∧ (∀ L : Z, validLevel L →
       (0 ≤ gzipPoolIndex L < Z.of_nat (length gzipWriterPools))%Z
       ∧ (0 ≤ flatePoolIndex L < Z.of_nat (length flateWriterPools))%Z)
  ∧ (∀ L L' : Z, validLevel L → validLevel L' →
       (gzipPoolIndex L = gzipPoolIndex L' → L = L')
       ∧ (flatePoolIndex L = flatePoolIndex L' → L = L'))
  ∧ (∀ i : Z, (0 ≤ i < Z.of_nat (length gzipWriterPools))%Z →
       ∃ L, validLevel L ∧ gzipPoolIndex L = i ∧ flatePoolIndex L = i).
Proof.
  destruct pools_length as [Hg Hf]. rewrite Hg, Hf.
  split; [|split; [reflexivity|split; [reflexivity|split; [|split]]]].
  - intros L HL. change (flatePoolIndex L) with (gzipPoolIndex L).
    split; apply gzipPoolIndex_explicit; exact HL.
  - intros L HL. change (flatePoolIndex L) with (gzipPoolIndex L).
    rewrite gzipPoolIndex_valid by done.
    destruct (validLevel_cases L HL) as [->|Hl]; [simpl; lia|].
    destruct (Z.eqb_spec L (-1)); lia.
  - intros L L' HL HL'.
    change (flatePoolIndex L) with (gzipPoolIndex L).
    change (flatePoolIndex L') with (gzipPoolIndex L').
    rewrite !gzipPoolIndex_valid by done.
    pose proof (validLevel_cases L HL). pose proof (validLevel_cases L' HL').
    destruct (Z.eqb_spec L (-1)), (Z.eqb_spec L' (-1)); split; lia.
  - intros i Hi.
    destruct (Z.eq_dec i 9) as [->|Hne].
    + exists (-1)%Z. split; [left; reflexivity|split; reflexivity].
    + exists (i + 1)%Z.
      assert (Hv : validLevel (i + 1)).
      { right. unfold gzip.BestSpeed, gzip.BestCompression. lia. }
      change (flatePoolIndex (i + 1)) with (gzipPoolIndex (i + 1)).
      rewrite gzipPoolIndex_valid by done.
      split; [done|]. destruct (Z.eqb_spec (i + 1) (-1)); lia.
Qed.

(** ** Splitting *)

Lemma Split_nonempty (s : string) (sep : ascii) : Split s sep ≠ [].
Proof.
  destruct s as [|c r]; simpl; [done|].
  destruct (Ascii.eqb c sep); [done|]. destruct (Split r sep); done.
Qed.

(** Joining the tokens with the separator gives the string back, and no
    token contains the separator. *)
Lemma Split_Join (s : string) (sep : ascii) :
  Join (Split s sep) sep = s
  ∧ Forall (λ t, hasByte sep t = false) (Split s sep).
Proof.
  induction s as [|c r IH]; simpl.
  - split; [reflexivity|]. repeat constructor.
  - destruct IH as [IHj IHf].
    destruct (Ascii.eqb_spec c sep) as [->|Hne].
    + pose proof (Split_nonempty r sep) as Hn.
      destruct (Split r sep) as [|t ts] eqn:E; [done|].
      split; [|constructor; [reflexivity|exact IHf]].
      change (Join (EmptyString :: t :: ts) sep)
        with (EmptyString ++ String sep (Join (t :: ts) sep)).
      rewrite IHj. reflexivity.
    + pose proof (Split_nonempty r sep) as Hn.
      destruct (Split r sep) as [|t ts] eqn:E; [done|].
      pose proof (Forall_inv IHf) as Ht. pose proof (Forall_inv_tail IHf) as Hts.
      simpl in Ht. split.
      * rewrite <- IHj. destruct ts as [|t' ts']; reflexivity.
      * constructor; [|exact Hts]. simpl. rewrite Ht.
        destruct (Ascii.eqb_spec c sep); [contradiction|reflexivity].
Qed.

(** ** Traces *)

Lemma rawWrites_app (tr1 tr2 : list Event) :
  rawWrites (tr1 ++ tr2) = (rawWrites tr1 ++ rawWrites tr2)%list.
Proof.
  induction tr1 as [|ev tr1 IH]; simpl; [reflexivity|].
  destruct ev; simpl; rewrite ?IH; reflexivity.
Qed.

Lemma countEv_app (p : Event → bool) (tr1 tr2 : list Event) :
  countEv p (tr1 ++ tr2) = (countEv p tr1 + countEv p tr2)%nat.
Proof.
  induction tr1 as [|ev tr1 IH]; simpl; [reflexivity|]. rewrite IH. lia.
Qed.

(** ** The scan *)

Lemma scan_cons (level : Z) (enc : string) (rest : list string) (c : State) :
  scan level (enc :: rest) c =
  if String.eqb (TrimSpace enc) gzipa then gzipCase level c
  else if String.eqb (TrimSpace enc) deflate then deflateCase level c
  else scan level rest c.
Proof. reflexivity. Qed.

Lemma scan_skip (level : Z) (enc : string) (rest : list string) (c : State) :
  ¬ supported enc → scan level (enc :: rest) c = scan level rest c.
Proof.
  intros Hn. rewrite scan_cons.
  destruct (String.eqb_spec (TrimSpace enc) gzipa) as [Hg|_].
  { exfalso. apply Hn. left. exact Hg. }
  destruct (String.eqb_spec (TrimSpace enc) deflate) as [Hd|_].
  { exfalso. apply Hn. right. exact Hd. }
  reflexivity.
Qed.

Lemma scan_hit (level : Z) (enc : string) (rest : list string) (c : State)
    (e : Encoding) :
  TrimSpace enc = encodingName e → scan level (enc :: rest) c = encCase e level c.
Proof.
  intros He. rewrite scan_cons, He. destruct e; reflexivity.
Qed.

Lemma scan_unsupported (level : Z) (toks : list string) (c : State) :
  (∀ t, t ∈ toks → ¬ supported t) → scan level toks c = Done c.
Proof.
  induction toks as [|enc rest IH]; intros Hall; [reflexivity|].
  rewrite scan_skip by (apply Hall; left).
  apply IH. intros t Ht. apply Hall. right. exact Ht.
Qed.

Lemma scan_first (level : Z) (pre : list string) (tok : string)
    (post : list string) (c : State) (e : Encoding) :
  (∀ t, t ∈ pre → ¬ supported t) →
  TrimSpace tok = encodingName e →
  scan level (pre ++ tok :: post) c = encCase e level c.
Proof.
  induction pre as [|enc pre IH]; intros Hpre Htok; simpl app.
  - apply scan_hit. exact Htok.
  - rewrite scan_skip by (apply Hpre; left).
    apply IH; [|exact Htok]. intros t Ht. apply Hpre. right. exact Ht.
Qed.

Lemma supported_name (tok : string) :
  supported tok ↔ ∃ e, TrimSpace tok = encodingName e.
Proof.
  split.
  - intros [H|H]; [exists Gzip|exists Deflate]; exact H.
  - intros [[] H]; [left|right]; exact H.
Qed.



Lemma encCase_header (e : Encoding) (level : Z) (c : State) :
  header (stateOf (encCase e level c)) !! "Content-Encoding" = Some [encodingName e]
  ∧ header (stateOf (encCase e level c)) !! "Vary"
    = Some (values (header c) "Vary" ++ ["Accept-Encoding"])%list.
Proof.
  destruct e; simpl; unfold gzipCase, deflateCase;
    match goal with |- context [poolAt ?a ?i] => destruct (poolAt a i) end;
    simpl; unfold Header_Add, Header_Set, values;
    rewrite lookup_insert_ne by done;
    rewrite !lookup_insert_eq;
    rewrite lookup_insert_ne by done; done.
Qed.



Lemma scan_trichotomy (level : Z) (toks : list string) (c : State) :
  scan level toks c = Done c
  ∨ scan level toks c = gzipCase level c
  ∨ scan level toks c = deflateCase level c.
Proof.
  induction toks as [|enc rest IH]; [left; reflexivity|].
  rewrite scan_cons.
  destruct (String.eqb (TrimSpace enc) gzipa); [right; left; reflexivity|].
  destruct (String.eqb (TrimSpace enc) deflate); [right; right; reflexivity|].
  exact IH.
Qed.


(** ** Running a handler *)

Lemma direct_frame (a : Action) (c : State) :
  wrapped (direct a c) = wrapped c
  ∧ isStream (direct a c) = isStream c
  ∧ deferred (direct a c) = deferred c.
Proof. destruct a; done. Qed.

Lemma hookWrite_frame (e : Encoding) (b : bytes) (c : State) :
  wrapped (hookWrite e b c) = wrapped c
  ∧ deferred (hookWrite e b c) = deferred c.
Proof.
  unfold hookWrite.
  destruct (isStream c || _ || _); done.
Qed.

Lemma hookPush_state (target : string) (opts : option PushOptions) (c : State) :
  pr_state (hookPush target opts c) = c.
Proof.
  unfold hookPush. destruct opts as [o|]; [|reflexivity].
  destruct (po_Header o) as [h|]; [|reflexivity].
  destruct (String.eqb (Header_Get h "Accept-Encoding") ""); reflexivity.
Qed.

Lemma step_frame (a : Action) (c : State) :
  wrapped (step a c) = wrapped c ∧ deferred (step a c) = deferred c.
Proof.
  unfold step. destruct (wrapped c) as [e|] eqn:Hw.
  - destruct a; simpl; try (rewrite Hw; done).
    + destruct (hookWrite_frame e b c) as [-> ->]. done.
    + destruct e; simpl; [rewrite Hw; done|].
      rewrite hookPush_state, Hw. done.
  - destruct (direct_frame a c) as (-> & _ & ->). done.
Qed.

Lemma ServeHTTP_frame (handler : list Action) (c : State) :
  wrapped (ServeHTTP handler c) = wrapped c
  ∧ deferred (ServeHTTP handler c) = deferred c.
Proof.
  revert c. induction handler as [|a rest IH]; intros c; [done|].
  unfold ServeHTTP in *. simpl.
  destruct (IH (step a c)) as [-> ->]. apply step_frame.
Qed.

Lemma ServeHTTP_unwrapped (handler : list Action) (c : State) :
  wrapped c = None → ServeHTTP handler c = serveDirect handler c.
Proof.
  revert c. induction handler as [|a rest IH]; intros c Hw; [reflexivity|].
  unfold ServeHTTP, serveDirect in *. simpl.
  assert (Hs : step a c = direct a c) by (unfold step; rewrite Hw; reflexivity).
  rewrite Hs. apply IH.
  destruct (direct_frame a c) as (-> & _). exact Hw.
Qed.

Lemma direct_rawWrites (a : Action) (c : State) :
  rawWrites (trace (direct a c)) = (rawWrites (trace c) ++ writesOf [a])%list.
Proof.
  destruct a; simpl; rewrite ?rawWrites_app; simpl; rewrite ?app_nil_r; reflexivity.
Qed.

Lemma writesOf_cons (a : Action) (rest : list Action) :
  writesOf (a :: rest) = (writesOf [a] ++ writesOf rest)%list.
Proof. destruct a; reflexivity. Qed.


Lemma direct_count (p : Event → bool) (a : Action) (c : State) :
  internalEv p → countEv p (trace (direct a c)) = countEv p (trace c).
Proof.
  intros (Hh & Hw & Hp).
  destruct a; simpl; rewrite ?countEv_app; simpl; rewrite ?Hh, ?Hw, ?Hp; lia.
Qed.

Lemma serveDirect_count (p : Event → bool) (handler : list Action) (c : State) :
  internalEv p → countEv p (trace (serveDirect handler c)) = countEv p (trace c).
Proof.
  intros Hp. revert c. induction handler as [|a rest IH]; intros c; [reflexivity|].
  unfold serveDirect in *. simpl foldl. rewrite IH. apply direct_count, Hp.
Qed.

Lemma direct_header_other (key : string) (a : Action) (c : State) :
  touches key a = false → header (direct a c) !! key = header c !! key.
Proof.
  destruct a as [k v|k v|k| | |]; simpl; try done;
    intros Hk; apply String.eqb_neq in Hk;
    unfold Header_Set, Header_Add, Header_Del.
  - apply lookup_insert_ne. exact Hk.
  - apply lookup_insert_ne. exact Hk.
  - apply lookup_delete_ne. exact Hk.
Qed.


(** ** The Write hook *)

Lemma hookWrite_streaming (e : Encoding) (b : bytes) (c : State) :
  streamingCondition b c →
  hookWrite e b c =
  emit [CodecReset e Discard; WriteCall b]
    (setHeader
       (Header_Del (Header_Del (ensureContentType b (header c)) "Content-Encoding") "Vary")
       (setStream true c)).
Proof.
  unfold streamingCondition, hookWrite. intros Hs.
  destruct (isStream c); [reflexivity|].
  destruct (Contains _ _); [reflexivity|].
  destruct (String.eqb_spec
    (Header_Get (ensureContentType b (header c)) "Transfer-Encoding") "chunked");
    [reflexivity|].
  destruct Hs as [?|[?|?]]; done.
Qed.

Lemma hookWrite_buffered (e : Encoding) (b : bytes) (c : State) :
  ¬ streamingCondition b c →
  hookWrite e b c =
  emit [CodecWrite e b]
    (setHeader (Header_Del (ensureContentType b (header c)) "Content-Length") c).
Proof.
  unfold streamingCondition, hookWrite. intros Hs.
  destruct (isStream c); [exfalso; apply Hs; left; reflexivity|].
  destruct (Contains _ _); [exfalso; apply Hs; right; left; reflexivity|].
  destruct (String.eqb_spec
    (Header_Get (ensureContentType b (header c)) "Transfer-Encoding") "chunked");
    [exfalso; apply Hs; right; right; assumption|].
  reflexivity.
Qed.

Lemma streamingCondition_decide (b : bytes) (c : State) :
  streamingCondition b c ∨ ¬ streamingCondition b c.
Proof.
  unfold streamingCondition.
  destruct (isStream c); [left; left; reflexivity|].
  destruct (Contains _ _); [left; right; left; reflexivity|].
  destruct (decide
    (Header_Get (ensureContentType b (header c)) "Transfer-Encoding" = "chunked"));
    [left; right; right; assumption|].
  right. intros [?|[?|?]]; done.
Qed.

Lemma hookWrite_isStream (e : Encoding) (b : bytes) (c : State) :
  isStream (hookWrite e b c) = true ↔ streamingCondition b c.
Proof.
  split.
  - intros Hs. destruct (streamingCondition_decide b c) as [Hy|Hn]; [exact Hy|].
    rewrite hookWrite_buffered in Hs by exact Hn. simpl in Hs. left. exact Hs.
  - intros Hs. rewrite hookWrite_streaming by exact Hs. reflexivity.
Qed.

Lemma ensureContentType_other (b : bytes) (h : Header) (key : string) :
  key ≠ "Content-Type" → ensureContentType b h !! key = h !! key.
Proof.
  intros Hk. unfold ensureContentType.
  destruct (String.eqb (Header_Get h "Content-Type") ""); [|reflexivity].
  unfold Header_Set. apply lookup_insert_ne. congruence.
Qed.

Lemma ensureContentType_Get (b : bytes) (h : Header) :
  Header_Get (ensureContentType b h) "Content-Type" =
  if String.eqb (Header_Get h "Content-Type") "" then DetectContentType b
  else Header_Get h "Content-Type".
Proof.
  unfold ensureContentType.
  destruct (String.eqb (Header_Get h "Content-Type") ""); [|reflexivity].
  unfold Header_Get, Header_Set. rewrite lookup_insert_eq. reflexivity.
Qed.

Lemma Header_Get_lookup (h h' : Header) (key : string) :
  h !! key = h' !! key → Header_Get h key = Header_Get h' key.
Proof. unfold Header_Get. intros ->. reflexivity. Qed.

(** Once the flag is set, one more call of the handler keeps it set,
    sends a written chunk to the original writer, and gives the codec
    nothing. *)
Lemma step_streaming (e : Encoding) (a : Action) (c : State) :
  wrapped c = Some e → isStream c = true →
  isStream (step a c) = true
  ∧ rawWrites (trace (step a c)) = (rawWrites (trace c) ++ writesOf [a])%list
  ∧ countEv isCodecWrite (trace (step a c)) = countEv isCodecWrite (trace c).
Proof.
  intros Hw Hs. unfold step. rewrite Hw.
  assert (Hd : isStream (direct a c) = true
    ∧ rawWrites (trace (direct a c)) = (rawWrites (trace c) ++ writesOf [a])%list
    ∧ countEv isCodecWrite (trace (direct a c)) = countEv isCodecWrite (trace c)).
  { destruct (direct_frame a c) as (_ & -> & _).
    split; [exact Hs|]. split; [apply direct_rawWrites|].
    apply direct_count. repeat split; reflexivity. }
  destruct a; simpl hooked; try exact Hd.
  - rewrite hookWrite_streaming by (left; exact Hs). simpl.
    rewrite rawWrites_app, countEv_app. simpl.
    split; [reflexivity|]. split; [reflexivity|lia].
  - destruct e; [exact Hd|]. rewrite hookPush_state. simpl.
    rewrite app_nil_r. done.
Qed.

Lemma ServeHTTP_streaming (e : Encoding) (handler : list Action) (c : State) :
  wrapped c = Some e → isStream c = true →
  isStream (ServeHTTP handler c) = true
  ∧ rawWrites (trace (ServeHTTP handler c))
    = (rawWrites (trace c) ++ writesOf handler)%list
  ∧ countEv isCodecWrite (trace (ServeHTTP handler c))
    = countEv isCodecWrite (trace c).
Proof.
  revert c. induction handler as [|a rest IH]; intros c Hw Hs.
  - simpl. rewrite app_nil_r. done.
  - destruct (step_streaming e a c Hw Hs) as (Hs1 & Hr1 & Hc1).
    assert (Hw1 : wrapped (step a c) = Some e).
    { destruct (step_frame a c) as [-> _]. exact Hw. }
    destruct (IH (step a c) Hw1 Hs1) as (Hs2 & Hr2 & Hc2).
    unfold ServeHTTP in *. simpl foldl.
    rewrite Hs2, Hr2, Hc2, Hr1, Hc1, (writesOf_cons a rest), app_assoc. done.
Qed.

(** C3, as the code has it. A body write through the decorated writer
    first gives the response a Content-Type, sniffed from the chunk, when
    it has none. Then, if the write is classified streaming, it leaves
    Content-Length as it is, removes Content-Encoding and Vary, resets the
    codec to the discard sink and writes the chunk to the original writer;
    otherwise it removes Content-Length and writes the chunk into the
    codec. *)
Theorem write_hook_routes (e : Encoding) (b : bytes) (c : State) :
  Header_Get (header (hookWrite e b c)) "Content-Type"
  = (if String.eqb (Header_Get (header c) "Content-Type") ""
     then DetectContentType b
     else Header_Get (header c) "Content-Type")
  ∧ (streamingCondition b c →
       header (hookWrite e b c) !! "Content-Length" = header c !! "Content-Length"
       ∧ header (hookWrite e b c) !! "Content-Encoding" = None
       ∧ header (hookWrite e b c) !! "Vary" = None
       ∧ trace (hookWrite e b c)
         = (trace c ++ [CodecReset e Discard; WriteCall b])%list)
  ∧ (¬ streamingCondition b c →
       header (hookWrite e b c) !! "Content-Length" = None
       ∧ header (hookWrite e b c) !! "Content-Encoding"
         = header c !! "Content-Encoding"
       ∧ trace (hookWrite e b c) = (trace c ++ [CodecWrite e b])%list).
Proof.
  split; [|split].
  - rewrite <- ensureContentType_Get.
    apply Header_Get_lookup.
    destruct (streamingCondition_decide b c) as [Hy|Hn].
    + rewrite hookWrite_streaming by exact Hy. simpl.
      unfold Header_Del. rewrite !lookup_delete_ne by done. reflexivity.
    + rewrite hookWrite_buffered by exact Hn. simpl.
      unfold Header_Del. rewrite lookup_delete_ne by done. reflexivity.
  - intros Hs. rewrite hookWrite_streaming by exact Hs. simpl.
    unfold Header_Del. split.
    { rewrite !lookup_delete_ne by done. apply ensureContentType_other. done. }
    rewrite lookup_delete_ne by done. rewrite !lookup_delete_eq. done.
  - intros Hn. rewrite hookWrite_buffered by exact Hn. simpl.
    unfold Header_Del. rewrite lookup_delete_eq.
    rewrite lookup_delete_ne by done. rewrite ensureContentType_other by done. done.
Qed.

(** ** The WriteHeader hook *)

(** C7, as the code has it. Every WriteHeader call through the decorated
    writer removes Content-Length from the response header, leaves the
    other fields alone, and forwards the status code to the original
    writer's WriteHeader once; the hook keeps no record of a commit, so a
    second call is forwarded in the same way. *)
Theorem writeHeader_hook_forwards_each_call (code : Z) (c : State) :
  header (hookWriteHeader code c) !! "Content-Length" = None
  ∧ (∀ key : string, key ≠ "Content-Length" →
       header (hookWriteHeader code c) !! key = header c !! key)
  ∧ trace (hookWriteHeader code c) = (trace c ++ [WriteHeaderCall code])%list
  ∧ (∀ code' : Z,
       trace (hookWriteHeader code' (hookWriteHeader code c))
       = (trace c ++ [WriteHeaderCall code; WriteHeaderCall code'])%list)
  ∧ isStream (hookWriteHeader code c) = isStream c
  ∧ wrapped (hookWriteHeader code c) = wrapped c.
Proof.
  unfold hookWriteHeader, Header_Del. simpl.
  split; [apply lookup_delete_eq|].
  split; [intros key Hk; apply lookup_delete_ne; congruence|].
  split; [reflexivity|].
  split; [|done].
  intros code'. rewrite <- app_assoc. reflexivity.
Qed.

(** ** The Push hook *)

(** C8, as the code has it. A push through the writer decorated for
    deflate changes the caller's options exactly when their
    [Header.Get("Accept-Encoding")] is empty: there is no header map, no
    entry for the field, an entry without values, or an entry whose first
    value is the empty string. Then gzip is appended after the values the
    entry already has, which makes it the only value when there were
    none; an entry whose first value is not empty is left as it is. The
    values the caller supplied, the other fields and the method are never
    changed. With a nil options pointer the caller's pointer stays nil:
    the options the hook builds, with the single value gzip, are held by
    the hook's own variable and by nothing else. *)
Theorem push_hook_adds_gzip_when_Get_empty (target : string)
    (opts : option PushOptions) (c : State) :
  (opts = None →
     pr_caller (hookPush target opts c) = None
     ∧ ∃ o', pr_opts (hookPush target opts c) = Some o'
         ∧ po_Header o' = Some {["Accept-Encoding" := ["gzip"]]})
  ∧ (∀ o, opts = Some o →
       ∃ o', pr_caller (hookPush target opts c) = Some o'
         ∧ pr_opts (hookPush target opts c) = Some o'
         ∧ po_Method o' = po_Method o
         ∧ (∀ key : string, key ≠ "Accept-Encoding" →
              optsHeader o' !! key = optsHeader o !! key)
         ∧ (Header_Get (optsHeader o) "Accept-Encoding" = "" →
              po_Header o' ≠ None
              ∧ values (optsHeader o') "Accept-Encoding"
                = (values (optsHeader o) "Accept-Encoding" ++ ["gzip"])%list)
         ∧ (Header_Get (optsHeader o) "Accept-Encoding" ≠ "" → o' = o)).
Proof.
  split.
  - intros ->. simpl. split; [reflexivity|]. eauto.
  - intros o ->. destruct o as [m [h|]]; unfold hookPush, optsHeader, values; simpl.
    + destruct (String.eqb_spec (Header_Get h "Accept-Encoding") "") as [Hg|Hg].
      * eexists. split; [reflexivity|]. split; [reflexivity|]. simpl.
        split; [reflexivity|]. unfold Header_Add. split.
        { intros key Hk. apply lookup_insert_ne. congruence. }
        split; [|done]. intros _. split; [done|].
        rewrite lookup_insert_eq. reflexivity.
      * eexists. split; [reflexivity|]. split; [reflexivity|]. simpl.
        split; [reflexivity|]. split; [done|]. split; [done|]. reflexivity.
    + eexists. split; [reflexivity|]. split; [reflexivity|]. simpl.
      split; [reflexivity|]. split.
      { intros key Hk. rewrite lookup_singleton_ne by congruence.
        rewrite lookup_empty. reflexivity. }
      split; [|done]. intros _. split; [done|].
      rewrite lookup_singleton_eq, lookup_empty. reflexivity.
Qed.

Lemma hookPush_error (target : string) (opts : option PushOptions) (c : State) :
  pr_err (hookPush target opts c) = None.
Proof.
  unfold hookPush. destruct opts as [o|]; [|reflexivity].
  destruct (po_Header o) as [h|]; [|reflexivity].
  destruct (String.eqb (Header_Get h "Accept-Encoding") ""); reflexivity.
Qed.

Lemma step_deflate_no_push (a : Action) (c : State) :
  wrapped c = Some Deflate →
  countEv isPushCall (trace (step a c)) = countEv isPushCall (trace c).
Proof.
  intros Hw. unfold step. rewrite Hw.
  destruct a; simpl hooked; try reflexivity.
  - simpl. rewrite countEv_app. simpl. lia.
  - unfold hookWrite. destruct (isStream c || _ || _); simpl;
      rewrite countEv_app; simpl; lia.
  - rewrite hookPush_state. reflexivity.
Qed.

Lemma ServeHTTP_deflate_no_push (handler : list Action) (c : State) :
  wrapped c = Some Deflate →
  countEv isPushCall (trace (ServeHTTP handler c)) = countEv isPushCall (trace c).
Proof.
  revert c. induction handler as [|a rest IH]; intros c Hw; [reflexivity|].
  unfold ServeHTTP in *. simpl foldl. rewrite IH.
  - apply step_deflate_no_push, Hw.
  - destruct (step_frame a c) as [-> _]. exact Hw.
Qed.

(** C9. Every Push call on the writer decorated for deflate returns a
    nil error and leaves the state as it was: no call is made on the
    original writer, and over a whole handler run no push ever reaches
    it. When the caller passes nil options, the options built inside the
    hook are held by the hook's own variable only: the caller's pointer is
    still nil afterwards. *)
Theorem push_hook_never_pushes (target : string) (opts : option PushOptions)
    (c : State) :
  pr_err (hookPush target opts c) = None
  ∧ pr_state (hookPush target opts c) = c
  ∧ pr_caller (hookPush target None c) = None
  ∧ pr_opts (hookPush target None c) ≠ None
  ∧ pr_state (hookPush target None c) = c
  ∧ (∀ handler : list Action, wrapped c = Some Deflate →
       countEv isPushCall (trace (ServeHTTP handler c))
       = countEv isPushCall (trace c)).
Proof.
  split; [apply hookPush_error|].
  split; [apply hookPush_state|].
  split; [reflexivity|]. split; [done|]. split; [reflexivity|].
  intros handler. apply ServeHTTP_deflate_no_push.
Qed.

(** ** The whole handler function *)

Lemma step_count (p : Event → bool) (a : Action) (c : State) :
  handlerSilent p → countEv p (trace (step a c)) = countEv p (trace c).
Proof.
  intros (Hi & Hr & Hw). unfold step.
  destruct (wrapped c) as [e|]; [|apply direct_count, Hi].
  pose proof (direct_count p a c Hi) as Hd.
  destruct Hi as (Hh & Hraw & Hp).
  destruct a; simpl hooked; try exact Hd.
  - unfold hookWrite. destruct (isStream c || _ || _); simpl;
      rewrite countEv_app; simpl; rewrite ?Hr, ?Hraw, ?Hw; lia.
  - destruct e; [exact Hd|]. rewrite hookPush_state. reflexivity.
Qed.

Lemma ServeHTTP_count (p : Event → bool) (handler : list Action) (c : State) :
  handlerSilent p →
  countEv p (trace (ServeHTTP handler c)) = countEv p (trace c).
Proof.
  intros Hp. revert c. induction handler as [|a rest IH]; intros c; [reflexivity|].
  unfold ServeHTTP in *. simpl foldl. rewrite IH. apply step_count, Hp.
Qed.

Lemma handlerSilent_pool :
  handlerSilent isPoolGet ∧ handlerSilent isPoolPut.
Proof. repeat split. Qed.

(** What a case of the switch leaves behind: a panic before anything was
    acquired, or one codec taken from the pool, one clean-up deferred and
    the hooks of the case on [w]. *)
Lemma encCase_outcome (e : Encoding) (level : Z) (w : ResponseWriter) :
  (∃ c, encCase e level (enter w) = Panic c ∧ trace c = rw_trace w)
  ∨ (∃ c index, encCase e level (enter w) = Done c
       ∧ wrapped c = Some e
       ∧ deferred c = [(e, index)]
       ∧ trace c = (rw_trace w ++ [PoolGet e index; CodecReset e OrigWriter])%list).
Proof.
  destruct e; simpl; unfold gzipCase, deflateCase;
    match goal with |- context [poolAt ?a ?i] => destruct (poolAt a i) end;
    [right|left|right|left]; eauto 10.
Qed.

Lemma CompressHandlerLevel_none (handler : list Action) (level : Z)
    (r : Request) (w : ResponseWriter) :
  scan (normalizeLevel level)
    (Split (Header_Get (req_Header r) "Accept-Encoding") ",") (enter w)
  = Done (enter w) →
  CompressHandlerLevel handler level r w = Done (serveDirect handler (enter w)).
Proof.
  intros Hs. unfold CompressHandlerLevel. rewrite Hs.
  rewrite ServeHTTP_unwrapped by reflexivity.
  unfold runDeferred.
  destruct (ServeHTTP_frame handler (enter w)) as [_ Hd].
  rewrite ServeHTTP_unwrapped in Hd by reflexivity. rewrite Hd. reflexivity.
Qed.

Lemma CompressHandlerLevel_counts_case (e : Encoding) (handler : list Action)
    (level : Z) (r : Request) (w : ResponseWriter) :
  scan (normalizeLevel level)
    (Split (Header_Get (req_Header r) "Accept-Encoding") ",") (enter w)
  = encCase e (normalizeLevel level) (enter w) →
  let c' := stateOf (CompressHandlerLevel handler level r w) in
  (countEv isPoolGet (trace c') = countEv isPoolGet (rw_trace w)
   ∧ countEv isPoolPut (trace c') = countEv isPoolPut (rw_trace w))
  ∨ (countEv isPoolGet (trace c') = S (countEv isPoolGet (rw_trace w))
     ∧ countEv isPoolPut (trace c') = S (countEv isPoolPut (rw_trace w))
     ∧ ∃ c, CompressHandlerLevel handler level r w = Done c).
Proof.
  destruct handlerSilent_pool as [Hget Hput].
  intros Hs. simpl. unfold CompressHandlerLevel. rewrite Hs.
  destruct (encCase_outcome e (normalizeLevel level) w)
    as [(c & -> & Ht)|(c & index & -> & Hw & Hd & Ht)]; simpl.
  - left. rewrite Ht. done.
  - right.
    destruct (ServeHTTP_frame handler c) as [_ Hd'].
    unfold runDeferred. rewrite Hd', Hd. simpl.
    rewrite !countEv_app, !ServeHTTP_count, Ht, !countEv_app by assumption.
    simpl. split; [lia|]. split; [lia|]. eauto.
Qed.

Lemma CompressHandlerLevel_counts (handler : list Action) (level : Z)
    (r : Request) (w : ResponseWriter) :
  let c' := stateOf (CompressHandlerLevel handler level r w) in
  (countEv isPoolGet (trace c') = countEv isPoolGet (rw_trace w)
   ∧ countEv isPoolPut (trace c') = countEv isPoolPut (rw_trace w))
  ∨ (countEv isPoolGet (trace c') = S (countEv isPoolGet (rw_trace w))
     ∧ countEv isPoolPut (trace c') = S (countEv isPoolPut (rw_trace w))
     ∧ ∃ c, CompressHandlerLevel handler level r w = Done c).
Proof.
  destruct (scan_trichotomy (normalizeLevel level)
    (Split (Header_Get (req_Header r) "Accept-Encoding") ",") (enter w))
    as [Hs|[Hs|Hs]].
  - destruct handlerSilent_pool as [[Hget _] [Hput _]].
    left. simpl. rewrite CompressHandlerLevel_none by exact Hs. simpl.
    rewrite !serveDirect_count by assumption. done.
  - apply (CompressHandlerLevel_counts_case Gzip), Hs.
  - apply (CompressHandlerLevel_counts_case Deflate), Hs.
Qed.

Lemma normalizeLevel_valid (level : Z) :
  level ≠ gzip.NoCompression → validLevel (normalizeLevel level).
Proof.
  unfold normalizeLevel, validLevel, gzip.NoCompression, gzip.DefaultCompression,
    gzip.BestSpeed, gzip.BestCompression.
  intros Hne.
  destruct (Z.ltb_spec level (-1)); [left; reflexivity|].
  destruct (Z.gtb_spec level 9); [left; reflexivity|]. simpl. lia.
Qed.

(** With a level the pools are built for, the request completes. *)
Lemma CompressHandlerLevel_completes (handler : list Action) (level : Z)
    (r : Request) (w : ResponseWriter) :
  validLevel (normalizeLevel level) →
  ∃ c, CompressHandlerLevel handler level r w = Done c.
Proof.
  intros Hv. destruct (poolAt_valid _ Hv) as [Hg Hf].
  unfold CompressHandlerLevel.
  destruct (scan_trichotomy (normalizeLevel level)
    (Split (Header_Get (req_Header r) "Accept-Encoding") ",") (enter w))
    as [->|[->| ->]]; [eauto| |].
  - unfold gzipCase. rewrite Hg. eauto.
  - unfold deflateCase. rewrite Hf. eauto.
Qed.

(** C10. The scan does the work of at most one case: its result is the
    state untouched, or the gzip case run once, or the deflate case run
    once, and the tokens after the first supported one play no part. So
    over the whole request at most one codec is taken from a pool and at
    most one is put back (exactly as many as were taken when the request
    completes), and after the scan the Content-Encoding field either is
    as it was or holds the single value gzip or the single value
    deflate. *)
Theorem scan_runs_at_most_one_case (handler : list Action) (level : Z)
    (r : Request) (w : ResponseWriter) :
  let toks := Split (Header_Get (req_Header r) "Accept-Encoding") "," in
  let lv := normalizeLevel level in
  let c' := stateOf (CompressHandlerLevel handler level r w) in
  (scan lv toks (enter w) = Done (enter w)
   ∨ scan lv toks (enter w) = gzipCase lv (enter w)
   ∨ scan lv toks (enter w) = deflateCase lv (enter w))
  ∧ (∀ (pre : list string) (tok : string) (post : list string),
       toks = (pre ++ tok :: post)%list →
       (∀ t, t ∈ pre → ¬ supported t) → supported tok →
       scan lv toks (enter w) = scan lv [tok] (enter w))
  ∧ (countEv isPoolGet (trace c') ≤ countEv isPoolGet (rw_trace w) + 1)%nat
  ∧ (countEv isPoolPut (trace c') ≤ countEv isPoolPut (rw_trace w) + 1)%nat
  ∧ (∀ c, CompressHandlerLevel handler level r w = Done c →
       (countEv isPoolPut (trace c) + countEv isPoolGet (rw_trace w)
        = countEv isPoolGet (trace c) + countEv isPoolPut (rw_trace w))%nat)
  ∧ (header (stateOf (scan lv toks (enter w))) !! "Content-Encoding"
       = rw_header w !! "Content-Encoding"
     ∨ header (stateOf (scan lv toks (enter w))) !! "Content-Encoding"
       = Some [gzipa]
     ∨ header (stateOf (scan lv toks (enter w))) !! "Content-Encoding"
       = Some [deflate]).
Proof.
  intros toks lv c'.
  split; [apply scan_trichotomy|].
  split.
  { intros pre tok post Htoks Hpre Htok.
    apply supported_name in Htok as [e He].
    rewrite Htoks, (scan_first lv pre tok post (enter w) e Hpre He).
    symmetry. apply scan_hit. exact He. }
  pose proof (CompressHandlerLevel_counts handler level r w) as Hc.
  simpl in Hc. fold c' in Hc.
  split; [lia|]. split; [lia|]. split.
  { intros c Hdone. subst c'. rewrite Hdone in Hc. simpl in Hc. lia. }
  destruct (scan_trichotomy lv toks (enter w)) as [->|[->| ->]].
  - left. reflexivity.
  - right. left. apply (encCase_header Gzip).
  - right. right. apply (encCase_header Deflate).
Qed.

(** C5. The level gzip.NoCompression, which no pool is built for, passes
    the guard of CompressHandlerLevel unchanged; its pool index is -1 for
    gzip and for deflate, which is outside both pool arrays, so a request
    that asks for gzip or for deflate panics at the pool lookup, after the
    response header has been given its Content-Encoding. Levels below the
    default level or above best compression are rewritten to the default
    level, and with every level other than gzip.NoCompression the level
    that reaches the pools is one they are built for and the request
    completes. *)
Theorem noCompression_level_not_normalized :
  normalizeLevel gzip.NoCompression = gzip.NoCompression
  ∧ gzipPoolIndex (normalizeLevel gzip.NoCompression) = (-1)%Z
  ∧ flatePoolIndex (normalizeLevel flate.NoCompression) = (-1)%Z
  ∧ poolAt gzipWriterPools (gzipPoolIndex (normalizeLevel gzip.NoCompression)) = None
  ∧ poolAt flateWriterPools (flatePoolIndex (normalizeLevel flate.NoCompression)) = None
  ∧ (∀ (handler : list Action) (r : Request) (w : ResponseWriter) (e : Encoding),
       Header_Get (req_Header r) "Accept-Encoding" = encodingName e →
       ∃ c, CompressHandlerLevel handler gzip.NoCompression r w = Panic c
            ∧ header c !! "Content-Encoding" = Some [encodingName e]
            ∧ trace c = rw_trace w)
  ∧ (∀ level : Z,
       (level < gzip.DefaultCompression ∨ gzip.BestCompression < level)%Z →
       normalizeLevel level = gzip.DefaultCompression)
  ∧ (∀ level : Z, level ≠ gzip.NoCompression →
       validLevel (normalizeLevel level)
       ∧ ∀ (handler : list Action) (r : Request) (w : ResponseWriter),
           ∃ c, CompressHandlerLevel handler level r w = Done c)
  ∧ ¬ validLevel gzip.NoCompression.
Proof.
  split; [reflexivity|]. split; [reflexivity|]. split; [reflexivity|].
  split; [reflexivity|]. split; [reflexivity|]. split; [|split; [|split]].
  - intros handler r w e Hae. unfold CompressHandlerLevel. rewrite Hae.
    destruct e; simpl; eexists; (split; [reflexivity|]); simpl;
      unfold Header_Add, Header_Set;
      rewrite lookup_insert_ne by done; rewrite lookup_insert_eq; done.
  - apply normalizeLevel_out_of_range.
  - intros level Hne. pose proof (normalizeLevel_valid level Hne) as Hv.
    split; [exact Hv|]. intros handler r w.
    apply CompressHandlerLevel_completes, Hv.
  - unfold validLevel, gzip.NoCompression, gzip.DefaultCompression,
      gzip.BestSpeed, gzip.BestCompression. lia.
Qed.

End Compress.

(** ** The tests of compress_test.go, replayed *)

(** TestCompressHandlerSSE: no Content-Encoding, the body as written. *)
Example test_CompressHandlerSSE :
  let c := stateOf (CompressHandlerLevel sniffOctet
    [ASet "Content-Type" "text/event-stream"; ASet "Cache-Control" "no-cache";
     ASet "Connection" "keep-alive"; AWriteHeader 200; AWrite hello]
    gzip.BestCompression (requestAccepting "gzip") emptyWriter) in
  Header_Get (header c) "Content-Encoding" = ""
  ∧ Header_Get (header c) "Content-Type" = "text/event-stream"
  ∧ rawWrites (trace c) = [hello]
  ∧ countEv isCodecWrite (trace c) = 0%nat.
Proof. vm_compute. done. Qed.

(** TestCompressHandlerGzip and TestCompressHandlerGzipDeflate: gzip is
    announced, Content-Length is gone, the chunk went into the codec. *)
Example test_CompressHandlerGzip :
  let c := stateOf (CompressHandlerLevel sniffOctet
    [ASet "Content-Length" "9216"; ASet "Content-Type" "text/plain; charset=utf-8";
     AWrite hello]
    gzip.BestCompression (requestAccepting "gzip, deflate ") emptyWriter) in
  Header_Get (header c) "Content-Encoding" = "gzip"
  ∧ Header_Get (header c) "Content-Length" = ""
  ∧ Header_Get (header c) "Content-Type" = "text/plain; charset=utf-8"
  ∧ trace c = [PoolGet Gzip 8; CodecReset Gzip OrigWriter; CodecWrite Gzip hello;
               CodecClose Gzip; PoolPut Gzip 8].
Proof. vm_compute. done. Qed.

(** TestCompressHandlerNoCompression: an empty Accept-Encoding value. *)
Example test_CompressHandlerNoCompression :
  let c := stateOf (CompressHandlerLevel sniffOctet
    [ASet "Content-Length" "9216"; ASet "Content-Type" "text/plain; charset=utf-8";
     AWrite hello]
    gzip.BestCompression (requestAccepting "") emptyWriter) in
  Header_Get (header c) "Content-Encoding" = ""
  ∧ Header_Get (header c) "Content-Length" = "9216"
  ∧ trace c = [WriteCall hello].
Proof. vm_compute. done. Qed.

(** TestCompressHandlerChunked: two chunks, both to the original writer,
    no Content-Encoding left. *)
Example test_CompressHandlerChunked :
  let c := stateOf (CompressHandlerLevel sniffOctet
    [ASet "Transfer-Encoding" "chunked";
     ASet "Content-Type" "text/plain; charset=utf-8";
     AWriteHeader 200; AWrite hello; AWrite hello]
    gzip.BestCompression (requestAccepting "gzip") emptyWriter) in
  Header_Get (header c) "Content-Encoding" = ""
  ∧ Header_Get (header c) "Transfer-Encoding" = "chunked"
  ∧ rawWrites (trace c) = [hello; hello]
  ∧ countEv isCodecWrite (trace c) = 0%nat.
Proof. vm_compute. done. Qed.

(** The inputs of TestSetAcceptEncodingForPushOptionsWithHeaders, given
    to the Push hook: a header map without Accept-Encoding gets gzip and
    keeps its User-Agent; one with Accept-Encoding deflate is left as it
    is. *)
Example push_hook_on_test_headers :
  let ua := {| po_Method := "GET";
               po_Header := Some {["User-Agent" := ["Mozilla/5.0"]]} |} in
  let df := {| po_Method := "GET";
               po_Header := Some (<["Accept-Encoding" := ["deflate"]]>
                                    {["User-Agent" := ["Mozilla/5.0"]]}) |} in
  (values (optionsHeader (pr_caller (hookPush "/x" (Some ua) (enter emptyWriter))))
     "Accept-Encoding" = ["gzip"]
   ∧ values (optionsHeader (pr_caller (hookPush "/x" (Some ua) (enter emptyWriter))))
       "User-Agent" = ["Mozilla/5.0"])
  ∧ pr_caller (hookPush "/x" (Some df) (enter emptyWriter)) = Some df
  ∧ pr_caller (hookPush "/x" None (enter emptyWriter)) = None.
Proof. vm_compute. done. Qed.

(** Tokens are compared as written: upper case is not recognised, while
    white space around a token (here a tab and a space) is trimmed. *)
Example accept_encoding_exact_tokens :
  scan gzip.DefaultCompression (Split "GZIP, Deflate" ",") (enter emptyWriter)
  = Done (enter emptyWriter)
  ∧ scan gzip.DefaultCompression (Split "br ,	deflate " ",") (enter emptyWriter)
    = deflateCase gzip.DefaultCompression (enter emptyWriter).
Proof. split; reflexivity. Qed.

(** ** Concrete instances *)


(** Options that come with the Accept-Encoding values "" and br have an
    entry for the field, and it is not empty; the hook appends gzip to it
    all the same. With a nil pointer the caller has no options after the
    call either. *)
Lemma push_hook_extends_existing_entry :
  values (optsHeader {| po_Method := "GET";
                        po_Header := Some {["Accept-Encoding" := [""; "br"]]} |})
    "Accept-Encoding" = [""; "br"]
  ∧ values (optionsHeader (pr_caller (hookPush "/style.css"
      (Some {| po_Method := "GET";
               po_Header := Some {["Accept-Encoding" := [""; "br"]]} |})
      (enter emptyWriter)))) "Accept-Encoding" = [""; "br"; "gzip"]
  ∧ pr_caller (hookPush "/style.css" None (enter emptyWriter)) = None
  ∧ values (optionsHeader (pr_caller (hookPush "/style.css" None
      (enter emptyWriter)))) "Accept-Encoding" = [].
Proof. repeat split; vm_compute; reflexivity. Qed.

(** A streaming write leaves the Content-Length of the handler in place. *)
Lemma streaming_write_keeps_content_length :
  streamingCondition sniffOctet hello
    (stateOf (CompressHandlerLevel sniffOctet
       [ASet "Content-Type" "text/event-stream"; ASet "Content-Length" "5"]
       gzip.BestCompression (requestAccepting "gzip") emptyWriter))
  ∧ Header_Get (header (stateOf (CompressHandlerLevel sniffOctet
       [ASet "Content-Type" "text/event-stream"; ASet "Content-Length" "5";
        AWrite hello]
       gzip.BestCompression (requestAccepting "gzip") emptyWriter)))
      "Content-Length" = "5"
  ∧ rawWrites (trace (stateOf (CompressHandlerLevel sniffOctet
       [ASet "Content-Type" "text/event-stream"; ASet "Content-Length" "5";
        AWrite hello]
       gzip.BestCompression (requestAccepting "gzip") emptyWriter)))
    = [hello]
  ∧ isStream (stateOf (CompressHandlerLevel sniffOctet
       [ASet "Content-Type" "text/event-stream"; ASet "Content-Length" "5";
        AWrite hello]
       gzip.BestCompression (requestAccepting "gzip") emptyWriter)) = true.
Proof.
  split; [right; left; vm_compute; reflexivity|].
  vm_compute. done.
Qed.

(** A second WriteHeader call is forwarded to the original writer like
    the first, and removes a Content-Length set in between. *)
Lemma second_writeHeader_is_forwarded :
  trace (stateOf (CompressHandlerLevel sniffOctet
      [ASet "Content-Length" "5"; AWriteHeader 200;
       ASet "Content-Length" "7"; AWriteHeader 500]
      gzip.DefaultCompression (requestAccepting "gzip") emptyWriter))
  = [PoolGet Gzip 9; CodecReset Gzip OrigWriter;
     WriteHeaderCall 200; WriteHeaderCall 500;
     CodecClose Gzip; PoolPut Gzip 9]
  ∧ header (stateOf (CompressHandlerLevel sniffOctet
      [ASet "Content-Length" "5"; AWriteHeader 200;
       ASet "Content-Length" "7"; AWriteHeader 500]
      gzip.DefaultCompression (requestAccepting "gzip") emptyWriter))
    !! "Content-Length" = None
  ∧ hookWriteHeader 500 (hookWriteHeader 200 (enter emptyWriter))
    ≠ hookWriteHeader 200 (enter emptyWriter).
Proof.
  split; [vm_compute; reflexivity|]. split; [vm_compute; reflexivity|].
  intros Heq. apply (f_equal trace) in Heq. discriminate Heq.
Qed.

(** * Beyond the compression claims *)

(** ** Errors (error.go) *)

Lemma hasByte_app (c : ascii) (s t : string) :
  hasByte c (s ++ t) = hasByte c s || hasByte c t.
Proof.
  induction s as [|c' s IH]; simpl; [reflexivity|].
  rewrite IH. apply orb_assoc.
Qed.

Lemma string_of_uint_digits (d : Decimal.uint) :
  hasByte "]" (NilEmpty.string_of_uint d) = false.
Proof. induction d; simpl; assumption || reflexivity. Qed.

(** The decimal text of an integer has no closing bracket. *)
Lemma formatInt_no_bracket (z : Z) : hasByte "]" (formatInt z) = false.
Proof.
  unfold formatInt, NilZero.string_of_int, NilZero.string_of_uint.
  destruct (Z.to_int z) as [d|d]; destruct d; simpl;
    try reflexivity; apply string_of_uint_digits.
Qed.

Lemma formatInt_inj (z z' : Z) : formatInt z = formatInt z' → z = z'.
Proof.
  intros Heq. apply DecimalZ.to_int_inj.
  assert (Hnn : ∀ n : Z,
    NilZero.int_of_string (formatInt n) = Some (Z.to_int n)).
  { intros n. unfold formatInt. apply NilZero.isi.
    - destruct n as [|q|q]; simpl; [discriminate| |discriminate].
      intros [= H]. exact (Unsigned.to_uint_nonnil q H).
    - destruct n as [|q|q]; simpl; [discriminate|discriminate|].
      intros [= H]. exact (Unsigned.to_uint_nonnil q H). }
  pose proof (Hnn z) as H1. rewrite Heq, Hnn in H1. congruence.
Qed.

(** Two texts that agree after a first closing bracket agree before it. *)
Lemma bracket_split (d d' x y : string) :
  hasByte "]" d = false → hasByte "]" d' = false →
  d ++ String "]" x = d' ++ String "]" y → d = d' ∧ x = y.
Proof.
  revert d'. induction d as [|c d IH]; intros [|c' d'] Hd Hd' Heq; simpl in *.
  - injection Heq as ->. done.
  - injection Heq as <- _. simpl in Hd'. discriminate.
  - injection Heq as -> _. simpl in Hd. discriminate.
  - injection Heq as -> Heq.
    apply orb_false_iff in Hd as [_ Hd]. apply orb_false_iff in Hd' as [_ Hd'].
    destruct (IH d' Hd Hd' Heq) as [-> ->]. done.
Qed.

(** X1. IsError holds of an error exactly when it was built by Error with
    that code; then ErrStatusCode and ErrBody give back the code and the
    body. A nil error and an error of any other type, also one that wraps
    an error built by Error, have status 0 and an empty body and satisfy
    none of the predicates. *)
Theorem error_classification (e : option error) (code : Z) :
  (IsError e code = true ↔ ∃ body, e = Error code body)
  ∧ (∀ body, ErrStatusCode (Error code body) = code
             ∧ ErrBody (Error code body) = body)
  ∧ ((∀ c b, e ≠ Error c b) →
       ErrStatusCode e = 0%Z ∧ ErrBody e = "" ∧ IsError e code = false
       ∧ IsServerError e = false)
  ∧ (∀ msg c b,
       IsError (Some (wrapError msg (httpError c b))) c = false
       ∧ ErrStatusCode (Some (wrapError msg (httpError c b))) = 0%Z).
Proof.
  split; [|split; [done|split; [|done]]].
  - split.
    + destruct e as [[c b| |]|]; simpl; try discriminate.
      intros Hc. apply Z.eqb_eq in Hc as ->. exists b. reflexivity.
    + intros [body ->]. simpl. apply Z.eqb_refl.
  - intros Hno. destruct e as [[c b| |]|]; simpl; try done.
    exfalso. apply (Hno c b). reflexivity.
Qed.

(** X2. The five status predicates exclude one another: of IsBadRequest,
    IsUnauthorized, IsForbidden, IsNotFound and IsServerError at most one
    holds of any error; IsServerError holds exactly of the errors built by
    Error with a code of 500 or more. *)
Theorem error_predicates_exclusive (e : option error) :
  (Nat.b2n (IsBadRequest e) + Nat.b2n (IsUnauthorized e)
   + Nat.b2n (IsForbidden e) + Nat.b2n (IsNotFound e)
   + Nat.b2n (IsServerError e) ≤ 1)%nat
  ∧ (IsServerError e = true
     ↔ ∃ c b, e = Error c b ∧ (http.StatusInternalServerError ≤ c)%Z).
Proof.
  unfold IsBadRequest, IsUnauthorized, IsForbidden, IsNotFound, IsError,
    IsServerError, http.StatusBadRequest, http.StatusUnauthorized,
    http.StatusForbidden, http.StatusNotFound, http.StatusInternalServerError.
  destruct e as [[c b| |]|]; simpl; try (split; [lia|]).
  - split.
    + destruct (Z.eqb_spec c 400), (Z.eqb_spec c 401), (Z.eqb_spec c 403),
        (Z.eqb_spec c 404), (Z.geb_spec c 500); simpl; lia.
    + split.
      * intros H. exists c, b. split; [reflexivity|].
        destruct (Z.geb_spec c 500); [lia|discriminate].
      * intros (c' & b' & [= -> ->] & Hc).
        destruct (Z.geb_spec c' 500); [reflexivity|lia].
  - split; [discriminate|]. intros (? & ? & [=] & _).
  - split; [discriminate|]. intros (? & ? & [=] & _).
  - split; [discriminate|]. intros (? & ? & [=] & _).
Qed.

(** X3. The message of an error built by Error determines the error: two
    such errors with the same message have the same code and the same
    body. *)
Theorem error_message_injective (c c' : Z) (b b' : string) :
  option_map errorMessage (Error c b) = option_map errorMessage (Error c' b') →
  c = c' ∧ b = b'.
Proof.
  simpl. intros [= Heq].
  apply (bracket_split (formatInt c) (formatInt c')) in Heq
    as [Hc [= ->]]; try apply formatInt_no_bracket.
  split; [apply formatInt_inj, Hc|reflexivity].
Qed.

(** ** Trimming *)

Lemma trimLeft_fixed (l : list ascii) : startsSpace l = false → trimLeft l = l.
Proof.
  destruct l as [|c1 r1]; [reflexivity|]. cbn [startsSpace trimLeft].
  destruct (asciiSpace (byteOf c1)); cbn [orb]; [discriminate|].
  destruct r1 as [|c2 r2]; [reflexivity|].
  destruct (spaceRune2 (byteOf c1) (byteOf c2)); cbn [orb]; [discriminate|].
  destruct r2 as [|c3 r3]; [reflexivity|].
  destruct (spaceRune3 (byteOf c1) (byteOf c2) (byteOf c3)); [discriminate|].
  reflexivity.
Qed.

Lemma trimLeft_startsSpace (l : list ascii) : startsSpace (trimLeft l) = false.
Proof.
  remember (length l) as n eqn:Hn.
  assert (Hle : (length l ≤ n)%nat) by lia. clear Hn.
  revert l Hle. induction n as [|n IH]; intros l Hle.
  { destruct l; [reflexivity|simpl in Hle; lia]. }
  destruct l as [|c1 r1]; [reflexivity|].
  simpl in Hle. cbn [trimLeft].
  destruct (asciiSpace (byteOf c1)) eqn:E1; [apply IH; lia|].
  destruct r1 as [|c2 r2]; [cbn [startsSpace endsSpaceRev orb]; rewrite E1; reflexivity|].
  simpl in Hle.
  destruct (spaceRune2 (byteOf c1) (byteOf c2)) eqn:E2; [apply IH; lia|].
  destruct r2 as [|c3 r3]; [cbn [startsSpace endsSpaceRev orb]; rewrite E1, E2; reflexivity|].
  simpl in Hle.
  destruct (spaceRune3 (byteOf c1) (byteOf c2) (byteOf c3)) eqn:E3;
    [apply IH; lia|].
  cbn [startsSpace endsSpaceRev orb]. rewrite E1, E2, E3. reflexivity.
Qed.

Lemma trimRightRev_fixed (l : list ascii) :
  endsSpaceRev l = false → trimRightRev l = l.
Proof.
  destruct l as [|c1 r1]; [reflexivity|]. cbn [endsSpaceRev trimRightRev].
  destruct (asciiSpace (byteOf c1)); cbn [orb]; [discriminate|].
  destruct r1 as [|c2 r2]; [reflexivity|].
  destruct (spaceRune2 (byteOf c2) (byteOf c1)); cbn [orb]; [discriminate|].
  destruct r2 as [|c3 r3]; [reflexivity|].
  destruct (spaceRune3 (byteOf c3) (byteOf c2) (byteOf c1)); [discriminate|].
  reflexivity.
Qed.

Lemma trimRightRev_endsSpaceRev (l : list ascii) :
  endsSpaceRev (trimRightRev l) = false.
Proof.
  remember (length l) as n eqn:Hn.
  assert (Hle : (length l ≤ n)%nat) by lia. clear Hn.
  revert l Hle. induction n as [|n IH]; intros l Hle.
  { destruct l; [reflexivity|simpl in Hle; lia]. }
  destruct l as [|c1 r1]; [reflexivity|].
  simpl in Hle. cbn [trimRightRev].
  destruct (asciiSpace (byteOf c1)) eqn:E1; [apply IH; lia|].
  destruct r1 as [|c2 r2]; [cbn [startsSpace endsSpaceRev orb]; rewrite E1; reflexivity|].
  simpl in Hle.
  destruct (spaceRune2 (byteOf c2) (byteOf c1)) eqn:E2; [apply IH; lia|].
  destruct r2 as [|c3 r3]; [cbn [startsSpace endsSpaceRev orb]; rewrite E1, E2; reflexivity|].
  simpl in Hle.
  destruct (spaceRune3 (byteOf c3) (byteOf c2) (byteOf c1)) eqn:E3;
    [apply IH; lia|].
  cbn [startsSpace endsSpaceRev orb]. rewrite E1, E2, E3. reflexivity.
Qed.

(** Trimming on the right leaves a part that ends where the input ends,
    on the reversed bytes: a suffix. *)
Lemma trimRightRev_suffix (l : list ascii) :
  ∃ cut, l = (cut ++ trimRightRev l)%list.
Proof.
  remember (length l) as n eqn:Hn.
  assert (Hle : (length l ≤ n)%nat) by lia. clear Hn.
  revert l Hle. induction n as [|n IH]; intros l Hle.
  { destruct l; [exists []; reflexivity|simpl in Hle; lia]. }
  destruct l as [|c1 r1]; [exists []; reflexivity|].
  simpl in Hle. cbn [trimRightRev].
  destruct (asciiSpace (byteOf c1)).
  { destruct (IH r1) as [cut Hc]; [lia|]. exists (c1 :: cut). simpl. congruence. }
  destruct r1 as [|c2 r2]; [exists []; reflexivity|].
  simpl in Hle.
  destruct (spaceRune2 (byteOf c2) (byteOf c1)).
  { destruct (IH r2) as [cut Hc]; [lia|]. exists (c1 :: c2 :: cut). simpl. congruence. }
  destruct r2 as [|c3 r3]; [exists []; reflexivity|].
  simpl in Hle.
  destruct (spaceRune3 (byteOf c3) (byteOf c2) (byteOf c1)).
  { destruct (IH r3) as [cut Hc]; [lia|].
    exists (c1 :: c2 :: c3 :: cut). simpl. congruence. }
  exists []. reflexivity.
Qed.

(** A list that does not begin with white space has no prefix that
    does. *)
Lemma startsSpace_prefix (a x : list ascii) :
  startsSpace (a ++ x) = false → startsSpace a = false.
Proof.
  destruct a as [|c1 [|c2 [|c3 a]]]; cbn [app startsSpace];
    try reflexivity; intros H.
  - destruct (asciiSpace (byteOf c1)); [discriminate|reflexivity].
  - destruct (asciiSpace (byteOf c1)); [discriminate|]. cbn [orb] in *.
    destruct (spaceRune2 (byteOf c1) (byteOf c2)); [discriminate|reflexivity].
  - exact H.
Qed.

(** The bytes [TrimSpace] keeps neither begin nor end with white space. *)
Lemma TrimSpace_bytes (s : string) :
  let kept := rev (trimRightRev (rev (trimLeft (list_ascii_of_string s)))) in
  list_ascii_of_string (TrimSpace s) = kept
  ∧ startsSpace kept = false
  ∧ endsSpaceRev (rev kept) = false.
Proof.
  simpl. unfold TrimSpace. rewrite list_ascii_of_string_of_list_ascii.
  split; [reflexivity|]. split.
  - destruct (trimRightRev_suffix (rev (trimLeft (list_ascii_of_string s))))
      as [cut Hcut].
    apply (f_equal (@rev ascii)) in Hcut. rewrite rev_involutive, rev_app_distr in Hcut.
    apply (startsSpace_prefix _ (rev cut)). rewrite <- Hcut.
    apply trimLeft_startsSpace.
  - rewrite rev_involutive. apply trimRightRev_endsSpaceRev.
Qed.

Lemma TrimSpace_idempotent (s : string) : TrimSpace (TrimSpace s) = TrimSpace s.
Proof.
  destruct (TrimSpace_bytes s) as (Hb & Hs & He). simpl in *.
  unfold TrimSpace at 1. rewrite Hb.
  rewrite trimLeft_fixed by exact Hs.
  rewrite trimRightRev_fixed by exact He.
  rewrite rev_involutive. reflexivity.
Qed.

(** ** Request validation (validate.go) *)

Lemma rwWriteHeader_inj (code code' : Z) (rw : ResponseWriter) :
  rwWriteHeader code rw = rwWriteHeader code' rw → code = code'.
Proof.
  unfold rwWriteHeader. simpl. intros [= H].
  apply app_inv_head in H. congruence.
Qed.

(** X4. RequireJSONBody returns a body or an error, never both and never
    neither. It succeeds exactly when the body could be read, the
    Content-Type begins with application/json, and the body, trimmed of
    surrounding white space, has at least three bytes and begins with an
    opening brace or bracket; nothing else about the body is checked.
    On success the writer is untouched and the trimmed body is returned;
    on failure the writer receives one WriteHeader, with 415 exactly when
    the body was read and the Content-Type did not match, and 400 in
    every other case. *)
Theorem RequireJSONBody_outcome (rw : ResponseWriter) (r : Request)
    (read : ReadResult) :
  let res := RequireJSONBody rw r read in
  (res.1.2 = None
   ↔ ∃ raw c rest,
       read = ReadOK raw
       ∧ String.prefix ContentTypeJSON (Header_Get (req_Header r) "Content-Type") = true
       ∧ TrimSpace raw = String c rest
       ∧ (3 ≤ String.length (TrimSpace raw))%nat
       ∧ (c = "{"%char ∨ c = "["%char))
  ∧ (res.1.2 = None →
       res.2 = rw ∧ ∃ raw, read = ReadOK raw ∧ res.1.1 = Some (TrimSpace raw))
  ∧ (res.1.2 ≠ None →
       res.1.1 = None
       ∧ ∃ code, res.2 = rwWriteHeader code rw
           ∧ (code = http.StatusBadRequest ∨ code = http.StatusUnsupportedMediaType)
           ∧ (code = http.StatusUnsupportedMediaType
              ↔ ∃ raw, read = ReadOK raw
                  ∧ String.prefix ContentTypeJSON
                      (Header_Get (req_Header r) "Content-Type") = false)).
Proof.
  unfold RequireJSONBody.
  destruct read as [raw|err]; cbn zeta.
  2:{ simpl. split; [split; [discriminate|intros (? & ? & ? & [=] & _)]|].
      split; [discriminate|]. intros _. split; [reflexivity|].
      exists http.StatusBadRequest. split; [reflexivity|]. split; [left; reflexivity|].
      split; [discriminate|]. intros (? & [=] & _). }
  destruct (String.prefix ContentTypeJSON
              (Header_Get (req_Header r) "Content-Type")) eqn:Hct; cbn [negb].
  2:{ simpl. split; [split; [discriminate|intros (? & ? & ? & _ & [=] & _)]|].
      split; [discriminate|]. intros _. split; [reflexivity|].
      exists http.StatusUnsupportedMediaType. split; [reflexivity|].
      split; [right; reflexivity|]. split; [eauto|reflexivity]. }
  destruct (Nat.ltb_spec (String.length (TrimSpace raw)) 3) as [Hlen|Hlen].
  { simpl. split; [split; [discriminate|]|].
    - intros (raw' & c & rest & [= <-] & _ & _ & Hl & _). exfalso. lia.
    - split; [discriminate|]. intros _. split; [reflexivity|].
      exists http.StatusBadRequest. split; [reflexivity|]. split; [left; reflexivity|].
      split; [discriminate|]. intros (? & _ & [=]). }
  destruct (TrimSpace raw) as [|c rest] eqn:Ht; [simpl in Hlen; lia|].
  destruct (Ascii.eqb_spec c "{") as [->|Hb]; cbn [negb andb].
  { simpl. split; [split; [intros _|reflexivity]|].
    - exists raw, "{"%char, rest. rewrite Ht. repeat split; auto.
    - split; [|done]. intros _. split; [reflexivity|]. exists raw. rewrite Ht. done. }
  destruct (Ascii.eqb_spec c "[") as [->|Hk]; cbn [negb].
  { simpl. split; [split; [intros _|reflexivity]|].
    - exists raw, "["%char, rest. rewrite Ht. repeat split; auto.
    - split; [|done]. intros _. split; [reflexivity|]. exists raw. rewrite Ht. done. }
  simpl. split; [split; [discriminate|]|].
  - intros (raw' & c' & rest' & [= <-] & _ & Ht' & _ & Hc).
    rewrite Ht in Ht'. injection Ht' as <- <-. destruct Hc; contradiction.
  - split; [discriminate|]. intros _. split; [reflexivity|].
    exists http.StatusBadRequest. split; [reflexivity|]. split; [left; reflexivity|].
    split; [discriminate|]. intros (? & _ & [=]).
Qed.

(** A body that is returned is a trimmed body of at least three bytes. *)
Lemma RequireJSONBody_returned (rw : ResponseWriter) (r : Request)
    (read : ReadResult) (body : string) :
  (RequireJSONBody rw r read).1.1 = Some body →
  ∃ raw, read = ReadOK raw ∧ body = TrimSpace raw
    ∧ (3 ≤ String.length (TrimSpace raw))%nat.
Proof.
  unfold RequireJSONBody. destruct read as [raw|err]; [|discriminate].
  cbn zeta.
  destruct (negb (String.prefix ContentTypeJSON
                    (Header_Get (req_Header r) "Content-Type"))); [discriminate|].
  destruct (Nat.ltb_spec (String.length (TrimSpace raw)) 3) as [Hlen|Hlen];
    [discriminate|].
  intros Hres. exists raw. split; [reflexivity|]. split; [|exact Hlen].
  destruct (TrimSpace raw) as [|c rest]; [simpl in Hres; congruence|].
  destruct (negb (Ascii.eqb c "{") && negb (Ascii.eqb c "["));
    simpl in Hres; congruence.
Qed.

(** X5. A body RequireJSONBody returns carries no surrounding white
    space: trimming it again changes nothing. *)
Theorem RequireJSONBody_body_trimmed (rw : ResponseWriter) (r : Request)
    (read : ReadResult) (body : string) :
  (RequireJSONBody rw r read).1.1 = Some body →
  TrimSpace body = body
  ∧ startsSpace (list_ascii_of_string body) = false
  ∧ endsSpaceRev (rev (list_ascii_of_string body)) = false
  ∧ (3 ≤ String.length body)%nat.
Proof.
  intros Hres.
  destruct (RequireJSONBody_returned rw r read body Hres) as (raw & _ & -> & Hlen).
  split; [apply TrimSpace_idempotent|].
  destruct (TrimSpace_bytes raw) as (Hbytes & Hs & Hend). cbn zeta in *.
  rewrite Hbytes. auto.
Qed.

(** X6. A readable body with a JSON Content-Type that has fewer than
    three bytes once trimmed is refused with status 400 and the error
    "request body is required"; the empty object and the empty array are
    such bodies. *)
Theorem RequireJSONBody_short_body (rw : ResponseWriter) (r : Request)
    (raw : string) :
  String.prefix ContentTypeJSON (Header_Get (req_Header r) "Content-Type") = true →
  (String.length (TrimSpace raw) < 3)%nat →
  RequireJSONBody rw r (ReadOK raw)
  = (None, Some (foreignError "request body is required"),
     rwWriteHeader http.StatusBadRequest rw).
Proof.
  intros Hct Hlen. unfold RequireJSONBody. rewrite Hct. cbn [negb].
  destruct (Nat.ltb_spec (String.length (TrimSpace raw)) 3); [reflexivity|lia].
Qed.

(** ** Method check (validate.go) *)

Lemma methodMatched_elem (method : string) (methods : list string) :
  methodMatched method methods = true ↔ method ∈ methods.
Proof.
  induction methods as [|m rest IH]; simpl.
  - split; [discriminate|]. intros H. inversion H.
  - destruct (String.eqb_spec method m) as [->|Hne].
    + split; [intros _; left|reflexivity].
    + rewrite IH. split; [intros H; right; exact H|].
      intros H. apply elem_of_cons in H as [?|?]; [contradiction|assumption].
Qed.

(** X7. AllowMethods returns nil exactly when the request method equals,
    byte for byte, one of the methods; then the writer is untouched.
    Otherwise it appends one Allow value, the methods joined by commas,
    after the Allow values already there, leaves every other field
    alone, and calls WriteHeader once, with 405. *)
Theorem AllowMethods_outcome (methods : list string) (rw : ResponseWriter)
    (r : Request) :
  ((AllowMethods methods rw r).1 = None ↔ req_Method r ∈ methods)
  ∧ (req_Method r ∈ methods → (AllowMethods methods rw r).2 = rw)
  ∧ (req_Method r ∉ methods →
       rw_trace (AllowMethods methods rw r).2
       = (rw_trace rw ++ [WriteHeaderCall http.StatusMethodNotAllowed])%list
       ∧ values (rw_header (AllowMethods methods rw r).2) "Allow"
         = (values (rw_header rw) "Allow" ++ [Join methods ","])%list
       ∧ ∀ key : string, key ≠ "Allow" →
           rw_header (AllowMethods methods rw r).2 !! key = rw_header rw !! key).
Proof.
  unfold AllowMethods.
  destruct (methodMatched (req_Method r) methods) eqn:Hm; cbn [negb].
  - apply methodMatched_elem in Hm. simpl. split; [done|]. split; [done|]. done.
  - assert (Hn : req_Method r ∉ methods).
    { intros Hin. apply methodMatched_elem in Hin. congruence. }
    simpl. split; [split; [discriminate|done]|]. split; [done|]. intros _.
    split; [reflexivity|]. unfold values, Header_Add. split.
    + rewrite lookup_insert_eq. reflexivity.
    + intros key Hk. apply lookup_insert_ne. congruence.
Qed.

Lemma Split_no_sep (s : string) (sep : ascii) :
  hasByte sep s = false → Split s sep = [s].
Proof.
  induction s as [|c r IH]; simpl; [reflexivity|].
  destruct (Ascii.eqb c sep); [discriminate|]. simpl.
  intros H. rewrite IH by exact H. reflexivity.
Qed.

Lemma Split_app_sep (s t : string) (sep : ascii) :
  hasByte sep s = false → Split (s ++ String sep t) sep = s :: Split t sep.
Proof.
  induction s as [|c r IH]; simpl.
  - intros _. rewrite Ascii.eqb_refl. reflexivity.
  - destruct (Ascii.eqb c sep); [discriminate|]. simpl.
    intros H. rewrite IH by exact H. reflexivity.
Qed.

(** Splitting undoes joining when no element contains the separator. *)
Lemma Split_of_Join (elems : list string) (sep : ascii) :
  elems ≠ [] → Forall (λ t, hasByte sep t = false) elems →
  Split (Join elems sep) sep = elems.
Proof.
  induction elems as [|t rest IH]; [done|]. intros _ Hall.
  pose proof (Forall_inv Hall) as Ht. pose proof (Forall_inv_tail Hall) as Hrest.
  simpl in Ht. destruct rest as [|t' rest'].
  - simpl. apply Split_no_sep, Ht.
  - change (Join (t :: t' :: rest') sep)
      with (t ++ String sep (Join (t' :: rest') sep)).
    rewrite Split_app_sep by exact Ht. rewrite IH by done. reflexivity.
Qed.

(** X8. When AllowMethods refuses a request, the Allow value it adds
    lists exactly the methods it was given: split at the commas it gives
    them back, in order, provided there is at least one method and none
    contains a comma. *)
Theorem AllowMethods_allow_lists_methods (methods : list string)
    (rw : ResponseWriter) (r : Request) :
  req_Method r ∉ methods → methods ≠ [] →
  Forall (λ m, hasByte "," m = false) methods →
  ∃ allow,
    last (values (rw_header (AllowMethods methods rw r).2) "Allow") = Some allow
    ∧ Split allow "," = methods.
Proof.
  intros Hn Hne Hall.
  assert (Hv : values (rw_header (AllowMethods methods rw r).2) "Allow"
               = (values (rw_header rw) "Allow" ++ [Join methods ","])%list).
  { unfold AllowMethods.
    destruct (methodMatched (req_Method r) methods) eqn:Hm; cbn [negb].
    - apply methodMatched_elem in Hm. contradiction.
    - simpl. unfold values, Header_Add. rewrite lookup_insert_eq. reflexivity. }
  exists (Join methods ","). rewrite Hv, last_snoc.
  split; [reflexivity|]. apply Split_of_Join; assumption.
Qed.

(** ** Response helpers (writers.go) *)

Lemma runOn_app (calls calls' : list Action) (w : ResponseWriter) :
  runOn (calls ++ calls') w = runOn calls' (runOn calls w).
Proof. unfold runOn. apply foldl_app. Qed.

Lemma addHeaderCalls_flat (kvs : list (string * list string)) :
  addHeaderCalls kvs = map (λ kv, AAdd kv.1 kv.2) (flatEntries kvs).
Proof.
  unfold addHeaderCalls, flatEntries.
  induction kvs as [|[k vs] kvs IH]; simpl; [reflexivity|].
  rewrite IH, map_app, map_map. reflexivity.
Qed.

Lemma flat_addHeaderCalls (entries : list (list (string * list string))) :
  flat_map addHeaderCalls entries
  = map (λ kv, AAdd kv.1 kv.2) (flatEntries (concat entries)).
Proof.
  induction entries as [|kvs entries IH]; simpl; [reflexivity|].
  rewrite IH, addHeaderCalls_flat. unfold flatEntries.
  rewrite flat_map_app, map_app. reflexivity.
Qed.

Lemma addedFor_cons (key k v : string) (adds : list (string * string)) :
  addedFor key ((k, v) :: adds)
  = if decide (k = key) then v :: addedFor key adds else addedFor key adds.
Proof.
  unfold addedFor. destruct (decide (k = key)) as [Hk|Hk].
  - rewrite filter_cons_True by exact Hk. reflexivity.
  - rewrite filter_cons_False by exact Hk. reflexivity.
Qed.

(** A run of [Add] calls leaves the trace alone and appends, for every
    field, the values added for it after the values it had. *)
Lemma runOn_adds (adds : list (string * string)) (w : ResponseWriter) :
  rw_trace (runOn (map (λ kv, AAdd kv.1 kv.2) adds) w) = rw_trace w
  ∧ ∀ key : string,
      rw_header (runOn (map (λ kv, AAdd kv.1 kv.2) adds) w) !! key
      = match addedFor key adds with
        | [] => rw_header w !! key
        | vs => Some (values (rw_header w) key ++ vs)%list
        end.
Proof.
  revert w. induction adds as [|[k v] adds IH]; intros w.
  - split; [reflexivity|]. intros key. reflexivity.
  - change (runOn (map (λ kv, AAdd kv.1 kv.2) ((k, v) :: adds)) w)
      with (runOn (map (λ kv, AAdd kv.1 kv.2) adds) (callOn (AAdd k v) w)).
    destruct (IH (callOn (AAdd k v) w)) as [Ht Hh].
    split; [rewrite Ht; reflexivity|]. intros key.
    rewrite Hh, addedFor_cons. simpl. unfold Header_Add, values.
    destruct (decide (k = key)) as [->|Hk].
    + rewrite lookup_insert_eq. simpl.
      destruct (addedFor key adds) as [|v' vs]; [reflexivity|].
      rewrite <- app_assoc. reflexivity.
    + rewrite lookup_insert_ne by exact Hk. reflexivity.
Qed.

Lemma values_lookup (h h' : Header) (key : string) :
  h !! key = h' !! key → values h key = values h' key.
Proof. unfold values. intros ->. reflexivity. Qed.

Lemma runOn_adds_values (adds : list (string * string)) (w : ResponseWriter)
    (key : string) :
  values (rw_header (runOn (map (λ kv, AAdd kv.1 kv.2) adds) w)) key
  = (values (rw_header w) key ++ addedFor key adds)%list.
Proof.
  destruct (runOn_adds adds w) as [_ Hh]. unfold values at 1. rewrite Hh.
  destruct (addedFor key adds) as [|v vs]; [|reflexivity].
  rewrite app_nil_r. reflexivity.
Qed.

Section WritersFacts.

Variable quote : string → string.
Variable CanonicalMIMEHeaderKey : string → string.

(** What the calls of [JSONError] leave in the response header. *)
Lemma JSONError_calls_header (msg : string) (code : Z)
    (entries : list (list (string * list string))) (w : ResponseWriter) :
  rw_header (runOn (JSONError_calls quote msg code entries) w) !! "Content-Type"
  = Some ["application/json; charset=utf-8"]
  ∧ ∀ key : string, key ≠ "Content-Type" → key ≠ "X-Content-Type-Options" →
      values (rw_header (runOn (JSONError_calls quote msg code entries) w)) key
      = (values (rw_header w) key
         ++ addedFor key (flatEntries (concat entries)))%list.
Proof.
  unfold JSONError_calls. rewrite runOn_app, flat_addHeaderCalls.
  simpl. unfold Header_Set. split.
  - rewrite lookup_insert_ne by done. apply lookup_insert_eq.
  - intros key H1 H2. rewrite <- runOn_adds_values.
    apply values_lookup. rewrite !lookup_insert_ne by congruence. reflexivity.
Qed.

(** X9. Whatever header maps JSONError is given, the response it leaves
    has exactly one Content-Type, application/json; charset=utf-8, and
    exactly one X-Content-Type-Options, nosniff: values passed in for
    these two fields are overwritten. Every other field keeps its values
    and gains the passed values after them, in the order visited. The
    status sent is the code when it is positive and 500 otherwise, so it
    is always positive, while the body reports the code as given; one
    WriteHeader and then one Write reach the writer. *)
Theorem JSONError_response (msg : string) (code : Z)
    (entries : list (list (string * list string))) (w : ResponseWriter) :
  let w' := runOn (JSONError_calls quote msg code entries) w in
  let status := if (code >? 0)%Z then code else http.StatusInternalServerError in
  rw_header w' !! "Content-Type" = Some ["application/json; charset=utf-8"]
  ∧ rw_header w' !! "X-Content-Type-Options" = Some ["nosniff"]
  ∧ (∀ key : string, key ≠ "Content-Type" → key ≠ "X-Content-Type-Options" →
       values (rw_header w') key
       = (values (rw_header w) key
          ++ addedFor key (flatEntries (concat entries)))%list)
  ∧ rw_trace w'
    = (rw_trace w
       ++ [WriteHeaderCall status;
           WriteCall (list_byte_of_string (JSONError_body quote msg code))])%list
  ∧ (0 < status)%Z.
Proof.
  intros w' status. subst w'. unfold JSONError_calls.
  rewrite runOn_app, flat_addHeaderCalls.
  set (w1 := runOn (map (λ kv, AAdd kv.1 kv.2) (flatEntries (concat entries))) w).
  pose proof (runOn_adds (flatEntries (concat entries)) w) as [Ht _].
  fold w1 in Ht. simpl. unfold Header_Set.
  split; [rewrite lookup_insert_ne by done; apply lookup_insert_eq|].
  split; [apply lookup_insert_eq|].
  split.
  { intros key H1 H2. unfold w1. rewrite <- runOn_adds_values.
    apply values_lookup. rewrite !lookup_insert_ne by congruence. reflexivity. }
  split.
  { rewrite Ht, <- app_assoc. reflexivity. }
  unfold status, http.StatusInternalServerError.
  destruct (Z.gtb_spec code 0); lia.
Qed.

(** In a list of entries with distinct keys at most one entry has a
    given key. *)
Lemma filter_key_NoDup (key : string) (kvs : list (string * list string)) :
  NoDup kvs.*1 → (length (filter (λ kv, kv.1 = key) kvs) ≤ 1)%nat.
Proof.
  induction kvs as [|[k vs] kvs IH]; intros Hnd; [simpl; lia|].
  apply NoDup_cons in Hnd as [Hk Hnd]. specialize (IH Hnd).
  destruct (decide (k = key)) as [->|Hne].
  - rewrite filter_cons_True by reflexivity. simpl.
    destruct (filter (λ kv, kv.1 = key) kvs) as [|[k' vs'] rest] eqn:E;
      [simpl; lia|].
    exfalso. apply Hk.
    assert (Hin : (k', vs') ∈ filter (λ kv, kv.1 = key) kvs) by (rewrite E; left).
    apply list_elem_of_filter in Hin as [Hk' Hin]. simpl in Hk'. subst k'.
    apply list_elem_of_fmap. exists (key, vs'). done.
  - rewrite filter_cons_False by exact Hne. exact IH.
Qed.

Lemma addedFor_flatEntries (key : string) (kvs : list (string * list string)) :
  addedFor key (flatEntries kvs)
  = concat (map snd (filter (λ kv, kv.1 = key) kvs)).
Proof.
  unfold flatEntries.
  induction kvs as [|[k vs] kvs IH]; [reflexivity|].
  cbn [flat_map]. unfold addedFor in *. rewrite filter_app, map_app, IH.
  destruct (decide (k = key)) as [->|Hne].
  - rewrite (filter_cons_True _ (key, vs)) by reflexivity. simpl. f_equal.
    clear IH. induction vs as [|v vs IHv]; [reflexivity|].
    simpl. rewrite filter_cons_True by reflexivity. simpl. rewrite IHv. reflexivity.
  - rewrite (filter_cons_False _ (k, vs)) by exact Hne.
    replace (filter (λ kv : string * string, kv.1 = key) (map (pair k) vs))
      with (@nil (string * string)); [reflexivity|].
    clear IH. induction vs as [|v vs IHv]; [reflexivity|].
    simpl. rewrite filter_cons_False by exact Hne. exact IHv.
Qed.

(** The values added for a field do not depend on the order in which the
    entries of a header map are visited, when no two of its keys have the
    same canonical form. *)
Lemma addedFor_order (key : string) (kvs : list (string * list string))
    (h : Header) :
  kvs ≡ₚ map_to_list h →
  NoDup (map CanonicalMIMEHeaderKey (map_to_list h).*1) →
  addedFor key (flatEntries (canonicalEntries CanonicalMIMEHeaderKey kvs))
  = addedFor key
      (flatEntries (canonicalEntries CanonicalMIMEHeaderKey (map_to_list h))).
Proof.
  intros Hp Hnd. rewrite !addedFor_flatEntries. f_equal. f_equal.
  assert (Hnd' : NoDup (canonicalEntries CanonicalMIMEHeaderKey (map_to_list h)).*1).
  { unfold canonicalEntries. rewrite <- list_fmap_compose.
    rewrite <- list_fmap_compose in Hnd. exact Hnd. }
  pose proof (filter_key_NoDup key _ Hnd') as Hl.
  assert (Hpf : filter (λ kv, kv.1 = key) (canonicalEntries CanonicalMIMEHeaderKey kvs)
                ≡ₚ filter (λ kv, kv.1 = key)
                     (canonicalEntries CanonicalMIMEHeaderKey (map_to_list h))).
  { unfold canonicalEntries. rewrite Hp. reflexivity. }
  destruct (filter (λ kv, kv.1 = key)
              (canonicalEntries CanonicalMIMEHeaderKey (map_to_list h)))
    as [|x [|y l]].
  - apply Permutation_nil_r in Hpf. exact Hpf.
  - apply Permutation_singleton_r in Hpf. exact Hpf.
  - simpl in Hl. lia.
Qed.

Lemma addedFor_app (key : string) (adds adds' : list (string * string)) :
  addedFor key (adds ++ adds') = (addedFor key adds ++ addedFor key adds')%list.
Proof. unfold addedFor. rewrite filter_app, map_app. reflexivity. Qed.

Lemma flatEntries_app (kvs kvs' : list (string * list string)) :
  flatEntries (kvs ++ kvs') = (flatEntries kvs ++ flatEntries kvs')%list.
Proof. unfold flatEntries. apply flat_map_app. Qed.

(** X10. Go visits the entries of a header map in no fixed order, and
    JSONError adds every entry under the canonical form of its key. When
    no two keys of one map have the same canonical form, the response
    does not depend on the order: header and calls are the same for every
    order in which the entries of each map may be visited. When two keys
    of one map do have the same canonical form, their values land in the
    same field in the order visited, so for values that differ the two
    orders leave different response headers. *)
Theorem JSONError_order_irrelevant (msg : string) (code : Z)
    (headers : list Header) (entries : list (list (string * list string)))
    (w : ResponseWriter) :
  Forall2 (λ kvs h, kvs ≡ₚ map_to_list h) entries headers →
  Forall (λ h, NoDup (map CanonicalMIMEHeaderKey (map_to_list h).*1)) headers →
  runOn (JSONError_calls quote msg code
           (map (canonicalEntries CanonicalMIMEHeaderKey) entries)) w
  = runOn (JSONError quote CanonicalMIMEHeaderKey msg code headers) w
  ∧ (∀ k1 k2 v1 v2 : string,
       k1 ≠ k2 →
       CanonicalMIMEHeaderKey k1 = CanonicalMIMEHeaderKey k2 →
       CanonicalMIMEHeaderKey k1 ≠ "Content-Type" →
       CanonicalMIMEHeaderKey k1 ≠ "X-Content-Type-Options" →
       v1 ≠ v2 →
       rw_header (runOn (JSONError_calls quote msg code
         [canonicalEntries CanonicalMIMEHeaderKey [(k1, [v1]); (k2, [v2])]]) w)
       ≠ rw_header (runOn (JSONError_calls quote msg code
         [canonicalEntries CanonicalMIMEHeaderKey [(k2, [v2]); (k1, [v1])]]) w)).
Proof.
  intros Hord Hkeys. split.
  - unfold JSONError, JSONError_calls.
    rewrite !runOn_app, !flat_addHeaderCalls. f_equal.
    assert (Hadd : ∀ key,
      addedFor key (flatEntries (concat
        (map (canonicalEntries CanonicalMIMEHeaderKey) entries)))
      = addedFor key (flatEntries (concat
          (map (λ h, canonicalEntries CanonicalMIMEHeaderKey (map_to_list h))
             headers)))).
    { intros key. clear w.
      induction Hord as [|kvs h entries headers Hp Hrest IH]; [reflexivity|].
      pose proof (Forall_inv Hkeys) as Hk.
      pose proof (Forall_inv_tail Hkeys) as Hks.
      simpl. rewrite !flatEntries_app, !addedFor_app, (IH Hks).
      rewrite (addedFor_order key kvs h Hp Hk). reflexivity. }
    destruct (runOn_adds (flatEntries (concat
      (map (canonicalEntries CanonicalMIMEHeaderKey) entries))) w) as [Ht Hh].
    destruct (runOn_adds (flatEntries (concat
      (map (λ h, canonicalEntries CanonicalMIMEHeaderKey (map_to_list h))
         headers))) w) as [Ht' Hh'].
    destruct (runOn (map _ (flatEntries (concat
      (map (canonicalEntries CanonicalMIMEHeaderKey) entries)))) w)
      as [h1 t1] eqn:E1.
    destruct (runOn (map _ (flatEntries (concat
      (map (λ h, canonicalEntries CanonicalMIMEHeaderKey (map_to_list h))
         headers)))) w) as [h2 t2] eqn:E2.
    simpl in *. f_equal; [|congruence].
    apply map_eq. intros key. rewrite Hh, Hh', Hadd. reflexivity.
  - intros k1 k2 v1 v2 _ Hsame Hct Hxc Hv Heq.
    apply (f_equal (λ h, values h (CanonicalMIMEHeaderKey k1))) in Heq.
    destruct (JSONError_calls_header msg code
      [canonicalEntries CanonicalMIMEHeaderKey [(k1, [v1]); (k2, [v2])]] w)
      as [_ H1].
    destruct (JSONError_calls_header msg code
      [canonicalEntries CanonicalMIMEHeaderKey [(k2, [v2]); (k1, [v1])]] w)
      as [_ H2].
    rewrite (H1 _ Hct Hxc), (H2 _ Hct Hxc) in Heq.
    apply app_inv_head in Heq.
    unfold canonicalEntries, flatEntries in Heq. simpl in Heq.
    rewrite <- Hsame in Heq. rewrite !addedFor_cons in Heq.
    rewrite !decide_True in Heq by reflexivity.
    injection Heq as Heq _. contradiction.
Qed.

(** X11. JSON answers with the first status code it is given, 200 when
    it is given none, and ignores any further codes. It replaces
    Content-Type and X-Content-Type-Options by its own single values and
    commits the status before encoding; when the encoder fails the status
    and the JSON content type are already sent and no body follows. *)
Theorem JSON_response (encoded : option bytes) (code : list Z)
    (w : ResponseWriter) :
  let w' := runOn (JSON encoded code) w in
  rw_header w' !! "Content-Type" = Some ["application/json; charset=utf-8"]
  ∧ rw_header w' !! "X-Content-Type-Options" = Some ["nosniff"]
  ∧ (∀ key : string, key ≠ "Content-Type" → key ≠ "X-Content-Type-Options" →
       rw_header w' !! key = rw_header w !! key)
  ∧ headerCodes (rw_trace w')
    = (headerCodes (rw_trace w) ++ [hd http.StatusOK code])%list
  ∧ rawWrites (rw_trace w')
    = (rawWrites (rw_trace w) ++ match encoded with Some b => [b] | None => [] end)%list
  ∧ (∀ c rest, JSON encoded (c :: rest) = JSON encoded [c]).
Proof.
  intros w'. subst w'. unfold JSON.
  assert (Hc : ∀ tr code, headerCodes (tr ++ [WriteHeaderCall code])
                          = (headerCodes tr ++ [code])%list).
  { intros tr c. induction tr as [|ev tr IH]; [reflexivity|].
    destruct ev; simpl; rewrite IH; reflexivity. }
  assert (Hw : ∀ tr b, headerCodes (tr ++ [WriteCall b]) = headerCodes tr).
  { intros tr b. induction tr as [|ev tr IH]; [reflexivity|].
    destruct ev; simpl; rewrite IH; reflexivity. }
  destruct encoded as [b|]; simpl; unfold Header_Set;
    (split; [rewrite lookup_insert_ne by done; apply lookup_insert_eq|]);
    (split; [apply lookup_insert_eq|]);
    (split; [intros key H1 H2; rewrite !lookup_insert_ne by congruence;
             reflexivity|]);
    rewrite ?Hw, ?Hc, ?rawWrites_app; simpl; rewrite ?app_nil_r;
    (split; [destruct code; reflexivity|]); done.
Qed.

End WritersFacts.

(** ** Panic recovery (RecoverRendered) *)

Lemma headerCodes_app (tr tr' : list Event) :
  headerCodes (tr ++ tr') = (headerCodes tr ++ headerCodes tr')%list.
Proof.
  induction tr as [|ev tr IH]; [reflexivity|].
  destruct ev; simpl; rewrite IH; reflexivity.
Qed.

Lemma withoutHeaderCalls_app (tr tr' : list Event) :
  withoutHeaderCalls (tr ++ tr')
  = (withoutHeaderCalls tr ++ withoutHeaderCalls tr')%list.
Proof.
  induction tr as [|ev tr IH]; [reflexivity|].
  destruct ev; simpl; rewrite IH; reflexivity.
Qed.

Lemma rawWrites_withoutHeaderCalls (tr : list Event) :
  rawWrites (withoutHeaderCalls tr) = rawWrites tr.
Proof.
  induction tr as [|ev tr IH]; [reflexivity|].
  destruct ev; simpl; rewrite ?IH; reflexivity.
Qed.

Lemma codesOf_app (calls calls' : list Action) :
  codesOf (calls ++ calls') = (codesOf calls ++ codesOf calls')%list.
Proof.
  induction calls as [|a calls IH]; [reflexivity|].
  destruct a; simpl; rewrite IH; reflexivity.
Qed.

Lemma writesOf_app (calls calls' : list Action) :
  writesOf (calls ++ calls') = (writesOf calls ++ writesOf calls')%list.
Proof.
  induction calls as [|a calls IH]; [reflexivity|].
  destruct a; simpl; rewrite IH; reflexivity.
Qed.

Lemma runOn_rawWrites (calls : list Action) (w : ResponseWriter) :
  rawWrites (rw_trace (runOn calls w))
  = (rawWrites (rw_trace w) ++ writesOf calls)%list.
Proof.
  revert w. induction calls as [|a calls IH]; intros w.
  - simpl. rewrite app_nil_r. reflexivity.
  - change (runOn (a :: calls) w) with (runOn calls (callOn a w)).
    rewrite IH, (writesOf_cons a calls), app_assoc. f_equal.
    destruct a; simpl; rewrite ?rawWrites_app; simpl; rewrite ?app_nil_r;
      reflexivity.
Qed.

Lemma recoverRun_app (calls calls' : list Action) (s : RecoverState) :
  recoverRun (calls ++ calls') s = recoverRun calls' (recoverRun calls s).
Proof. unfold recoverRun. apply foldl_app. Qed.

(** The guard touches nothing but [WriteHeader] calls: header and all
    other calls are those of the same calls made on the writer itself. *)
Lemma recoverRun_passes (calls : list Action) (s : RecoverState)
    (w : ResponseWriter) :
  rw_header (rs_writer s) = rw_header w →
  withoutHeaderCalls (rw_trace (rs_writer s)) = withoutHeaderCalls (rw_trace w) →
  rw_header (rs_writer (recoverRun calls s)) = rw_header (runOn calls w)
  ∧ withoutHeaderCalls (rw_trace (rs_writer (recoverRun calls s)))
    = withoutHeaderCalls (rw_trace (runOn calls w)).
Proof.
  revert s w. induction calls as [|a calls IH]; intros s w Hh Ht; [done|].
  change (recoverRun (a :: calls) s) with (recoverRun calls (recoverCall a s)).
  change (runOn (a :: calls) w) with (runOn calls (callOn a w)).
  apply IH.
  - destruct a; simpl; try (rewrite Hh; reflexivity).
    destruct (statusWritten s =? -1)%Z; simpl; exact Hh.
  - destruct a; simpl; rewrite ?withoutHeaderCalls_app; simpl;
      try (rewrite Ht; reflexivity).
    destruct (statusWritten s =? -1)%Z; simpl;
      rewrite ?withoutHeaderCalls_app; simpl; rewrite ?app_nil_r; exact Ht.
Qed.

(** With status codes that [int32] does not turn into -1, the guard
    forwards the first [WriteHeader] and no other. *)
Lemma recoverRun_codes (calls : list Action) (s : RecoverState) :
  Forall (λ code, wrap32 code ≠ (-1)%Z) (codesOf calls) →
  headerCodes (rw_trace (rs_writer (recoverRun calls s)))
  = (headerCodes (rw_trace (rs_writer s))
     ++ if (statusWritten s =? -1)%Z then take 1 (codesOf calls) else [])%list.
Proof.
  revert s. induction calls as [|a calls IH]; intros s Hok.
  - simpl. destruct (statusWritten s =? -1)%Z; rewrite app_nil_r; reflexivity.
  - change (recoverRun (a :: calls) s) with (recoverRun calls (recoverCall a s)).
    destruct a as [k v|k v|k|code|b|t o];
      try (rewrite IH by exact Hok; simpl; rewrite ?headerCodes_app; simpl;
           rewrite ?app_nil_r; reflexivity).
    simpl in Hok. pose proof (Forall_inv Hok) as Hc.
    apply Forall_inv_tail in Hok. rewrite IH by exact Hok. simpl.
    destruct (Z.eqb_spec (statusWritten s) (-1)) as [Hs|Hs]; simpl.
    + destruct (Z.eqb_spec (wrap32 code) (-1)); [contradiction|].
      rewrite headerCodes_app, app_nil_r. reflexivity.
    + destruct (Z.eqb_spec (statusWritten s) (-1)); [contradiction|]. reflexivity.
Qed.

Section RecoverFacts.

Variable quote : string → string.

(** X12. RecoverRendered changes nothing but WriteHeader calls: whatever
    the handler and the renderer do, the response header is the one their
    calls would leave on the writer itself, and every Write and Push
    reaches the writer, in order; only WriteHeader calls can be missing. *)
Theorem RecoverRendered_passes_all_but_WriteHeader
    (renderPanic : option PanicRenderer) (next : list Action)
    (panic : option PanicValue) (stack : string) (w : ResponseWriter) :
  let calls := (next ++ panicCalls quote renderPanic panic stack)%list in
  let w' := rs_writer (RecoverRendered quote renderPanic next panic stack w) in
  rw_header w' = rw_header (runOn calls w)
  ∧ withoutHeaderCalls (rw_trace w') = withoutHeaderCalls (rw_trace (runOn calls w))
  ∧ rawWrites (rw_trace w') = (rawWrites (rw_trace w) ++ writesOf calls)%list.
Proof.
  intros calls w'. subst calls w'. unfold RecoverRendered.
  rewrite <- recoverRun_app.
  destruct (recoverRun_passes (next ++ panicCalls quote renderPanic panic stack)
              {| rs_writer := w; statusWritten := -1 |} w eq_refl eq_refl)
    as [Hh Ht].
  split; [exact Hh|]. split; [exact Ht|].
  rewrite <- rawWrites_withoutHeaderCalls, Ht, rawWrites_withoutHeaderCalls.
  apply runOn_rawWrites.
Qed.

(** X13. When no status code passed to WriteHeader, by the handler or by
    the renderer, becomes -1 as an int32, RecoverRendered lets exactly one
    WriteHeader through to the writer: the first one made, with its code;
    every later one is dropped. *)
Theorem RecoverRendered_single_commit
    (renderPanic : option PanicRenderer) (next : list Action)
    (panic : option PanicValue) (stack : string) (w : ResponseWriter) :
  Forall (λ code, wrap32 code ≠ (-1)%Z)
    (codesOf (next ++ panicCalls quote renderPanic panic stack)) →
  headerCodes (rw_trace (rs_writer
    (RecoverRendered quote renderPanic next panic stack w)))
  = (headerCodes (rw_trace w)
     ++ take 1 (codesOf (next ++ panicCalls quote renderPanic panic stack)))%list.
Proof.
  intros Hok. unfold RecoverRendered. rewrite <- recoverRun_app.
  rewrite recoverRun_codes by exact Hok. reflexivity.
Qed.

(** X14. Recover, with its JSON renderer, after a panic, when no code
    the handler passed to WriteHeader is -1 as an int32. If the handler
    had called WriteHeader, the code of its first call is the only one
    the writer receives and the 500 of the renderer is dropped. If it had
    not called WriteHeader, also when it had already written chunks of
    the body, the WriteHeader(500) of the renderer is forwarded to the
    writer. Either way the JSON error body is written after the chunks
    the handler wrote, carrying the stack text when the panic value is an
    error and the text "Internal Server Error" otherwise, and the
    Content-Type is the JSON one. *)
Theorem Recover_after_panic (next : list Action) (pv : PanicValue)
    (stack : string) (w : ResponseWriter) :
  Forall (λ code, wrap32 code ≠ (-1)%Z) (codesOf next) →
  let w' := rs_writer (Recover quote next (Some pv) stack w) in
  let msg := match pv with
             | PanicError _ => stack
             | PanicOther => "Internal Server Error"
             end in
  headerCodes (rw_trace w')
  = (headerCodes (rw_trace w)
     ++ [hd http.StatusInternalServerError (codesOf next)])%list
  ∧ rawWrites (rw_trace w')
    = (rawWrites (rw_trace w) ++ writesOf next
       ++ [list_byte_of_string
             (JSONError_body quote msg http.StatusInternalServerError)])%list
  ∧ rw_header w' !! "Content-Type" = Some ["application/json; charset=utf-8"].
Proof.
  intros Hok w' msg. subst w'. unfold Recover, RecoverRendered.
  assert (Hcalls : panicCalls quote None (Some pv) stack
                   = JSONError_calls quote msg http.StatusInternalServerError []).
  { destruct pv; reflexivity. }
  rewrite <- recoverRun_app, Hcalls.
  set (calls := (next ++ JSONError_calls quote msg
                           http.StatusInternalServerError [])%list).
  destruct (recoverRun_passes calls
              {| rs_writer := w; statusWritten := -1 |} w eq_refl eq_refl)
    as [Hh Ht].
  assert (Hcodes : codesOf calls
                   = (codesOf next ++ [http.StatusInternalServerError])%list).
  { unfold calls. rewrite codesOf_app. reflexivity. }
  split; [|split].
  - rewrite recoverRun_codes.
    + simpl. rewrite Hcodes. f_equal. destruct (codesOf next); reflexivity.
    + rewrite Hcodes. apply Forall_app. split; [exact Hok|].
      repeat constructor. vm_compute. discriminate.
  - rewrite <- rawWrites_withoutHeaderCalls, Ht, rawWrites_withoutHeaderCalls.
    rewrite runOn_rawWrites. unfold calls. rewrite writesOf_app. reflexivity.
  - rewrite Hh. unfold calls. rewrite runOn_app.
    apply (JSONError_calls_header quote msg http.StatusInternalServerError []
             (runOn next w)).
Qed.

End RecoverFacts.

(** ** The compressed response as a whole *)

Lemma codecWrites_app (tr tr' : list Event) :
  codecWrites (tr ++ tr') = (codecWrites tr ++ codecWrites tr')%list.
Proof.
  induction tr as [|ev tr IH]; [reflexivity|].
  destruct ev; simpl; rewrite ?IH; reflexivity.
Qed.

Lemma lastSink_app (tr tr' : list Event) :
  lastSink (tr ++ tr')
  = match lastSink tr' with Some k => Some k | None => lastSink tr end.
Proof.
  induction tr as [|ev tr IH]; simpl.
  - destruct (lastSink tr'); reflexivity.
  - destruct ev; try exact IH. rewrite IH.
    destruct (lastSink tr'); [reflexivity|]. reflexivity.
Qed.

Lemma serveDirect_runOn (handler : list Action) (c : State) (w : ResponseWriter) :
  header c = rw_header w → trace c = rw_trace w →
  header (serveDirect handler c) = rw_header (runOn handler w)
  ∧ trace (serveDirect handler c) = rw_trace (runOn handler w).
Proof.
  revert c w. induction handler as [|a rest IH]; intros c w Hh Ht; [done|].
  change (serveDirect (a :: rest) c) with (serveDirect rest (direct a c)).
  change (runOn (a :: rest) w) with (runOn rest (callOn a w)).
  apply IH; destruct a; simpl; congruence.
Qed.

Lemma poolIndex_range_valid (level : Z) :
  validLevel level →
  (0 ≤ gzipPoolIndex level < Z.of_nat (length gzipWriterPools))%Z.
Proof.
  intros Hv. rewrite gzipPoolIndex_valid by exact Hv.
  destruct pools_length as [-> _].
  pose proof (validLevel_cases level Hv).
  destruct (Z.eqb_spec level (-1)); lia.
Qed.

Section CompressFacts.

Variable DetectContentType : bytes → string.

(** What one call of the handler on the decorated writer adds to the
    trace: nothing, a forwarded WriteHeader or Push, a chunk for the
    codec while the flag is off, or a reset to the discard sink and the
    chunk for the original writer, which sets the flag. *)
Lemma step_adds (e : Encoding) (a : Action) (c : State) :
  wrapped c = Some e →
  ∃ m, trace (step DetectContentType a c) = (trace c ++ m)%list
    ∧ ((writesOf [a] = [] ∧ codecWrites m = [] ∧ rawWrites m = []
        ∧ lastSink m = None ∧ countEv isPoolGet m = 0%nat
        ∧ countEv isPoolPut m = 0%nat
        ∧ isStream (step DetectContentType a c) = isStream c)
       ∨ (∃ b, a = AWrite b ∧ m = [CodecWrite e b] ∧ isStream c = false
               ∧ isStream (step DetectContentType a c) = false)
       ∨ (∃ b, a = AWrite b ∧ m = [CodecReset e Discard; WriteCall b]
               ∧ isStream (step DetectContentType a c) = true)).
Proof.
  intros Hw. unfold step. rewrite Hw.
  destruct a as [k v|k v|k|code|b|t o]; simpl hooked.
  - exists []. simpl. rewrite app_nil_r. split; [reflexivity|]. left. done.
  - exists []. simpl. rewrite app_nil_r. split; [reflexivity|]. left. done.
  - exists []. simpl. rewrite app_nil_r. split; [reflexivity|]. left. done.
  - exists [WriteHeaderCall code]. split; [reflexivity|]. left. done.
  - destruct (streamingCondition_decide DetectContentType b c) as [Hy|Hn].
    + rewrite hookWrite_streaming by exact Hy.
      exists [CodecReset e Discard; WriteCall b]. split; [reflexivity|].
      right. right. exists b. done.
    + rewrite hookWrite_buffered by exact Hn.
      exists [CodecWrite e b]. split; [reflexivity|].
      right. left. exists b. split; [reflexivity|]. split; [reflexivity|].
      simpl. assert (Hf : isStream c = false).
      { destruct (isStream c) eqn:E; [|reflexivity].
        exfalso. apply Hn. left. exact E. }
      done.
  - destruct e.
    + exists [PushCall t o]. split; [reflexivity|]. left. done.
    + rewrite hookPush_state. exists []. rewrite app_nil_r.
      split; [reflexivity|]. left. done.
Qed.

(** What a whole handler run on the decorated writer adds to the trace. *)
Lemma ServeHTTP_adds (e : Encoding) (handler : list Action) (c : State) :
  wrapped c = Some e →
  ∃ mid,
    trace (ServeHTTP DetectContentType handler c) = (trace c ++ mid)%list
    ∧ countEv isPoolGet mid = 0%nat ∧ countEv isPoolPut mid = 0%nat
    ∧ writesOf handler = (codecWrites mid ++ rawWrites mid)%list
    ∧ (lastSink mid = None ∨ lastSink mid = Some Discard)
    ∧ (isStream c = true →
         codecWrites mid = []
         ∧ isStream (ServeHTTP DetectContentType handler c) = true)
    ∧ (isStream (ServeHTTP DetectContentType handler c) = false →
         rawWrites mid = [] ∧ lastSink mid = None)
    ∧ (isStream c = false →
       isStream (ServeHTTP DetectContentType handler c) = true →
         lastSink mid = Some Discard ∧ rawWrites mid ≠ []).
Proof.
  revert c. induction handler as [|a rest IH]; intros c Hw.
  { exists []. simpl. rewrite app_nil_r. repeat split; auto; congruence. }
  assert (Hw1 : wrapped (step DetectContentType a c) = Some e).
  { destruct (step_frame DetectContentType a c) as [-> _]. exact Hw. }
  destruct (IH _ Hw1) as (mid' & Ht' & Hg' & Hp' & Hparts' & Hsink' & Hon' & Hoff' & Hflip').
  destruct (step_adds e a c Hw) as (m & Hm & Hkind).
  change (ServeHTTP DetectContentType (a :: rest) c)
    with (ServeHTTP DetectContentType rest (step DetectContentType a c)) in *.
  exists (m ++ mid')%list.
  rewrite (writesOf_cons a rest), Ht', Hm, <- app_assoc,
    !countEv_app, codecWrites_app, rawWrites_app, lastSink_app, Hg', Hp', Hparts'.
  split; [reflexivity|].
  destruct Hkind as [(Hwa & Hcw & Hrw & Hls & Hcg & Hcp & Hs)
                    |[(b & -> & -> & Hc0 & Hs)|(b & -> & -> & Hs)]].
  - rewrite Hwa, Hcw, Hrw, Hls, Hcg, Hcp, Hs in *. simpl.
    split; [reflexivity|]. split; [reflexivity|]. split; [reflexivity|].
    split; [destruct Hsink' as [-> | ->]; auto|].
    split; [exact Hon'|]. split.
    + intros Hf. destruct (Hoff' Hf) as [-> ->]. done.
    + intros H0 H1. destruct (Hflip' H0 H1) as [-> Hne]. done.
  - simpl. rewrite Hs in *.
    split; [reflexivity|]. split; [reflexivity|]. split; [reflexivity|].
    split; [destruct Hsink' as [-> | ->]; auto|].
    split; [congruence|]. split.
    + intros Hf. destruct (Hoff' Hf) as [-> ->]. done.
    + intros _ H1. destruct (Hflip' eq_refl H1) as [-> Hne]. done.
  - simpl. destruct (Hon' Hs) as [Hcw Hfin]. rewrite Hcw in *. simpl.
    split; [reflexivity|]. split; [reflexivity|]. split; [reflexivity|].
    split; [destruct Hsink' as [-> | ->]; auto|].
    split; [intros _; done|]. split; [congruence|].
    intros _ _. split; [destruct Hsink' as [-> | ->]; reflexivity|discriminate].
Qed.

(** The outcome of a request for which encoding [e] is selected at a
    level the pools are built for. *)
Lemma selected_run (handler : list Action) (level : Z) (r : Request)
    (w : ResponseWriter) (e : Encoding) :
  selects (normalizeLevel level)
    (Split (Header_Get (req_Header r) "Accept-Encoding") ",") (enter w) e →
  level ≠ gzip.NoCompression →
  ∃ c0,
    encCase e (normalizeLevel level) (enter w) = Done c0
    ∧ wrapped c0 = Some e ∧ isStream c0 = false
    ∧ deferred c0 = [(e, gzipPoolIndex (normalizeLevel level))]
    ∧ trace c0 = (rw_trace w
                  ++ [PoolGet e (gzipPoolIndex (normalizeLevel level));
                      CodecReset e OrigWriter])%list
    ∧ CompressHandlerLevel DetectContentType handler level r w
      = Done (emit [CodecClose e;
                    PoolPut e (gzipPoolIndex (normalizeLevel level))]
                (ServeHTTP DetectContentType handler c0)).
Proof.
  intros Hsel Hne. pose proof (normalizeLevel_valid level Hne) as Hv.
  destruct (poolAt_valid _ Hv) as [Hg Hf].
  unfold selects in Hsel. unfold CompressHandlerLevel. rewrite Hsel.
  destruct e; simpl; unfold gzipCase, deflateCase; rewrite ?Hg, ?Hf;
    eexists; (split; [reflexivity|]); simpl;
    (split; [reflexivity|]); (split; [reflexivity|]);
    (split; [reflexivity|]); (split; [reflexivity|]);
    unfold runDeferred;
    match goal with |- context [deferred (ServeHTTP ?d ?h ?c)] =>
      destruct (ServeHTTP_frame d h c) as [_ ->] end; reflexivity.
Qed.

Lemma ServeHTTP_app (pre post : list Action) (c : State) :
  ServeHTTP DetectContentType (pre ++ post) c
  = ServeHTTP DetectContentType post (ServeHTTP DetectContentType pre c).
Proof. unfold ServeHTTP. apply foldl_app. Qed.

(** The classification in the words of the specification is the
    condition the Write hook tests. *)
Lemma classifiedStreaming_iff (b : bytes) (c : State) :
  classifiedStreaming DetectContentType b c
  ↔ streamingCondition DetectContentType b c.
Proof.
  unfold classifiedStreaming, streamingCondition. cbn zeta.
  rewrite ensureContentType_Get.
  rewrite (Header_Get_lookup (ensureContentType DetectContentType b (header c))
             (header c) "Transfer-Encoding")
    by (apply ensureContentType_other; done).
  reflexivity.
Qed.

(** The outcome of a request for which the scan selects [e]: at every
    level but NoCompression the handler runs on the decorated writer, at
    NoCompression the pool lookup panics. *)
Lemma selected_outcome (handler : list Action) (level : Z) (r : Request)
    (w : ResponseWriter) (e : Encoding) :
  selects (normalizeLevel level)
    (Split (Header_Get (req_Header r) "Accept-Encoding") ",") (enter w) e →
  let index := poolIndex e (normalizeLevel level) in
  let out := CompressHandlerLevel DetectContentType handler level r w in
  (level ≠ gzip.NoCompression
   ∧ ∃ c0, header c0 = announced e (rw_header w)
       ∧ wrapped c0 = Some e ∧ isStream c0 = false
       ∧ trace c0 = (rw_trace w ++ [PoolGet e index; CodecReset e OrigWriter])%list
       ∧ out = Done (emit [CodecClose e; PoolPut e index]
                       (ServeHTTP DetectContentType handler c0)))
  ∨ (level = gzip.NoCompression
     ∧ ∃ c, out = Panic c
         ∧ header c = announced e (rw_header w) ∧ trace c = rw_trace w).
Proof.
  intros Hsel index out. subst index out.
  unfold selects in Hsel. unfold CompressHandlerLevel. rewrite Hsel.
  destruct (decide (level = gzip.NoCompression)) as [->|Hne].
  - right. split; [reflexivity|].
    destruct e; simpl; eexists; (split; [reflexivity|]); done.
  - left. split; [exact Hne|].
    pose proof (normalizeLevel_valid level Hne) as Hv.
    destruct (poolAt_valid _ Hv) as [Hg Hf].
    exists {| header := announced e (rw_header w); wrapped := Some e;
              isStream := false;
              deferred := [(e, poolIndex e (normalizeLevel level))];
              trace := (rw_trace w
                        ++ [PoolGet e (poolIndex e (normalizeLevel level));
                            CodecReset e OrigWriter])%list |}.
    split; [reflexivity|]. split; [reflexivity|]. split; [reflexivity|].
    split; [reflexivity|].
    destruct e; cbn [encCase poolIndex]; unfold gzipCase, deflateCase;
      rewrite ?Hg, ?Hf; unfold runDeferred;
      match goal with |- context [deferred (ServeHTTP ?d ?h ?c)] =>
        destruct (ServeHTTP_frame d h c) as [_ ->] end; reflexivity.
Qed.





(** C1. In a compressed response, every body write the handler makes is
    classified by the decorated writer as the specification says: it sets
    the streaming flag exactly when the flag was already set, or the
    Content-Type (sniffed from the chunk when the header had none)
    contains text/event-stream, or Transfer-Encoding is chunked. When it
    does, the codec is reset to the discard sink, Content-Encoding and
    Vary are gone from the response header and the chunk goes to the
    original writer; from then on, whatever the handler does (header
    changes included), the flag stays set, every chunk it writes reaches
    the original writer, in order, and the codec receives none. When it
    does not, the flag stays off and the chunk goes into the codec. *)
Theorem streaming_flag_sticky (pre post : list Action) (b : bytes) (level : Z)
    (r : Request) (w : ResponseWriter) (e : Encoding) :
  selects (normalizeLevel level)
    (Split (Header_Get (req_Header r) "Accept-Encoding") ",") (enter w) e →
  level ≠ gzip.NoCompression →
  ∃ c0 : State,
    header c0 = announced e (rw_header w)
    ∧ wrapped c0 = Some e ∧ isStream c0 = false
    ∧ let c1 := ServeHTTP DetectContentType pre c0 in
      let c2 := ServeHTTP DetectContentType [AWrite b] c1 in
      let c3 := ServeHTTP DetectContentType post c2 in
      CompressHandlerLevel DetectContentType (pre ++ AWrite b :: post) level r w
      = Done (emit [CodecClose e; PoolPut e (poolIndex e (normalizeLevel level))] c3)
      ∧ (isStream c2 = true ↔ classifiedStreaming DetectContentType b c1)
      ∧ (classifiedStreaming DetectContentType b c1 →
           header c2 !! "Content-Encoding" = None
           ∧ header c2 !! "Vary" = None
           ∧ trace c2 = (trace c1 ++ [CodecReset e Discard; WriteCall b])%list
           ∧ isStream c3 = true
           ∧ rawWrites (trace c3)
             = (rawWrites (trace c1) ++ b :: writesOf post)%list
           ∧ countEv isCodecWrite (trace c3) = countEv isCodecWrite (trace c1))
      ∧ (¬ classifiedStreaming DetectContentType b c1 →
           isStream c2 = false
           ∧ trace c2 = (trace c1 ++ [CodecWrite e b])%list).
Proof.
  intros Hsel Hne.
  destruct (selected_outcome (pre ++ AWrite b :: post) level r w e Hsel)
    as [(_ & c0 & Hh & Hw & Hs & _ & Hrun)|(Hl & _)]; [|contradiction].
  cbn zeta in Hrun.
  exists c0. split; [exact Hh|]. split; [exact Hw|]. split; [exact Hs|].
  cbn zeta. set (c1 := ServeHTTP DetectContentType pre c0).
  assert (Hw1 : wrapped c1 = Some e).
  { unfold c1. destruct (ServeHTTP_frame DetectContentType pre c0) as [-> _].
    exact Hw. }
  assert (Hc2 : ServeHTTP DetectContentType [AWrite b] c1
                = hookWrite DetectContentType e b c1).
  { unfold ServeHTTP. simpl. unfold step. rewrite Hw1. reflexivity. }
  split.
  { rewrite Hrun, ServeHTTP_app.
    change (AWrite b :: post) with ([AWrite b] ++ post)%list.
    rewrite ServeHTTP_app. reflexivity. }
  rewrite Hc2. split.
  { rewrite hookWrite_isStream. symmetry. apply classifiedStreaming_iff. }
  split.
  - intros Hc. apply classifiedStreaming_iff in Hc.
    rewrite hookWrite_streaming by exact Hc.
    match goal with |- context [ServeHTTP DetectContentType post ?c] =>
      set (c2 := c) end.
    assert (Hw2 : wrapped c2 = Some e) by exact Hw1.
    destruct (ServeHTTP_streaming DetectContentType e post c2 Hw2 eq_refl)
      as (Hon & Hraw & Hcod).
    split.
    { simpl. unfold Header_Del. rewrite lookup_delete_ne by done.
      apply lookup_delete_eq. }
    split; [simpl; unfold Header_Del; apply lookup_delete_eq|].
    split; [reflexivity|]. split; [exact Hon|].
    rewrite Hraw, Hcod. unfold c2. simpl.
    rewrite rawWrites_app, countEv_app. simpl.
    rewrite <- app_assoc. split; [reflexivity|lia].
  - intros Hn.
    assert (Hn' : ¬ streamingCondition DetectContentType b c1).
    { intros Hy. apply Hn, classifiedStreaming_iff, Hy. }
    rewrite hookWrite_buffered by exact Hn'. simpl.
    split; [|reflexivity].
    destruct (isStream c1) eqn:E; [|reflexivity].
    exfalso. apply Hn'. left. exact E.
Qed.



(** X15. When an encoding is selected at a level other than
    NoCompression, the request completes and the calls it makes are, in
    this order: one codec taken from the pool of the normalized level, at
    an index inside the pool array; the codec reset onto the original
    writer; the calls of the handler, none of which touches a pool; the
    codec closed; the codec put back at the index it was taken from. *)
Theorem compressed_response_pool_discipline (handler : list Action) (level : Z)
    (r : Request) (w : ResponseWriter) (e : Encoding) :
  selects (normalizeLevel level)
    (Split (Header_Get (req_Header r) "Accept-Encoding") ",") (enter w) e →
  level ≠ gzip.NoCompression →
  ∃ c mid index,
    CompressHandlerLevel DetectContentType handler level r w = Done c
    ∧ trace c = (rw_trace w ++ [PoolGet e index; CodecReset e OrigWriter]
                 ++ mid ++ [CodecClose e; PoolPut e index])%list
    ∧ (0 ≤ index < Z.of_nat (length gzipWriterPools))%Z
    ∧ poolAt (match e with Gzip => gzipWriterPools | Deflate => flateWriterPools end)
        index = Some (normalizeLevel level)
    ∧ countEv isPoolGet mid = 0%nat
    ∧ countEv isPoolPut mid = 0%nat.
Proof.
  intros Hsel Hne.
  destruct (selected_run handler level r w e Hsel Hne)
    as (c0 & _ & Hw0 & _ & _ & Ht0 & Hrun).
  destruct (ServeHTTP_adds e handler c0 Hw0) as (mid & Ht & Hg & Hp & _).
  pose proof (normalizeLevel_valid level Hne) as Hv.
  eexists _, mid, (gzipPoolIndex (normalizeLevel level)).
  split; [exact Hrun|]. simpl. rewrite Ht, Ht0, <- !app_assoc.
  split; [reflexivity|].
  split; [apply poolIndex_range_valid, Hv|].
  split; [destruct e; apply (poolAt_valid _ Hv)|]. done.
Qed.

(** A handler run on the decorated writer, begun with the flag off,
    falls in two parts: before the flag is set the chunks go into the
    codec, and nothing is written directly; from the write that sets the
    flag on, the chunks are written directly and the codec gets none. *)
Lemma ServeHTTP_split (e : Encoding) (handler : list Action) (c : State) :
  wrapped c = Some e → isStream c = false →
  ∃ mid1 mid2,
    trace (ServeHTTP DetectContentType handler c) = (trace c ++ mid1 ++ mid2)%list
    ∧ rawWrites mid1 = [] ∧ lastSink mid1 = None
    ∧ codecWrites mid2 = []
    ∧ writesOf handler = (codecWrites mid1 ++ rawWrites mid2)%list
    ∧ (isStream (ServeHTTP DetectContentType handler c) = false → mid2 = [])
    ∧ (isStream (ServeHTTP DetectContentType handler c) = true →
         (∃ b rest, mid2 = CodecReset e Discard :: WriteCall b :: rest)
         ∧ lastSink mid2 = Some Discard).
Proof.
  revert c. induction handler as [|a rest IH]; intros c Hw Hs.
  { exists [], []. simpl. rewrite app_nil_r.
    repeat split; auto; congruence. }
  assert (Hw1 : wrapped (step DetectContentType a c) = Some e).
  { destruct (step_frame DetectContentType a c) as [-> _]. exact Hw. }
  destruct (step_adds e a c Hw) as (m & Hm & Hkind).
  change (ServeHTTP DetectContentType (a :: rest) c)
    with (ServeHTTP DetectContentType rest (step DetectContentType a c)).
  rewrite (writesOf_cons a rest).
  destruct Hkind as [(Hwa & Hcw & Hrw & Hls & _ & _ & Hs1)
                    |[(b & -> & -> & _ & Hs1)|(b & -> & -> & Hs1)]].
  - rewrite Hs in Hs1.
    destruct (IH _ Hw1 Hs1)
      as (mid1 & mid2 & Ht & Hr1 & Hl1 & Hc2 & Hparts & Hoff & Hon).
    exists (m ++ mid1)%list, mid2.
    rewrite Ht, Hm, <- !app_assoc, rawWrites_app, lastSink_app,
      codecWrites_app, Hrw, Hr1, Hl1, Hls, Hcw, Hwa.
    repeat split; auto; apply Hon; assumption.
  - destruct (IH _ Hw1 Hs1)
      as (mid1 & mid2 & Ht & Hr1 & Hl1 & Hc2 & Hparts & Hoff & Hon).
    exists ([CodecWrite e b] ++ mid1)%list, mid2.
    rewrite Ht, Hm, <- !app_assoc, rawWrites_app, lastSink_app,
      codecWrites_app, Hr1, Hl1, Hparts.
    repeat split; auto; apply Hon; assumption.
  - destruct (ServeHTTP_adds e rest _ Hw1)
      as (mid' & Ht' & _ & _ & Hparts' & Hsink' & Hon' & _ & _).
    destruct (Hon' Hs1) as [Hcw' Hfin].
    exists [], ([CodecReset e Discard; WriteCall b] ++ mid')%list.
    rewrite Ht', Hm, <- !app_assoc, Hfin, Hparts', Hcw'. simpl.
    rewrite Hcw'.
    split; [reflexivity|]. split; [reflexivity|]. split; [reflexivity|].
    split; [reflexivity|]. split; [reflexivity|]. split; [discriminate|].
    intros _. split; [eauto|].
    destruct Hsink' as [-> | ->]; reflexivity.
Qed.

(** X16. In a completed request with an encoding selected, the calls the
    handler causes fall in two parts. In the first, while the streaming
    flag is off, every chunk is given to the codec and none is written to
    the original writer directly. The second begins with the write that
    sets the flag: the codec is reset onto the discard sink and the chunk
    is written to the original writer, as is every chunk after it, while
    the codec is given nothing more. So every chunk is handed on exactly
    once, to the codec or to the writer, in the order written. If the
    flag is never set the second part is empty and the codec is closed
    while set to the original writer; if it is set, the codec is closed
    while set to the discard sink, where the chunks of the first part
    were given to it before. *)
Theorem compressed_response_chunks (handler : list Action) (level : Z)
    (r : Request) (w : ResponseWriter) (e : Encoding) :
  selects (normalizeLevel level)
    (Split (Header_Get (req_Header r) "Accept-Encoding") ",") (enter w) e →
  level ≠ gzip.NoCompression →
  ∃ c mid1 mid2,
    CompressHandlerLevel DetectContentType handler level r w = Done c
    ∧ trace c = (rw_trace w
                 ++ [PoolGet e (poolIndex e (normalizeLevel level));
                     CodecReset e OrigWriter]
                 ++ mid1 ++ mid2
                 ++ [CodecClose e;
                     PoolPut e (poolIndex e (normalizeLevel level))])%list
    ∧ rawWrites mid1 = [] ∧ lastSink mid1 = None
    ∧ codecWrites mid2 = []
    ∧ writesOf handler = (codecWrites mid1 ++ rawWrites mid2)%list
    ∧ (isStream c = false →
         mid2 = [] ∧ codecWrites mid1 = writesOf handler
         ∧ lastSink (trace c) = Some OrigWriter)
    ∧ (isStream c = true →
         (∃ b rest, mid2 = CodecReset e Discard :: WriteCall b :: rest)
         ∧ lastSink (trace c) = Some Discard).
Proof.
  intros Hsel Hne.
  destruct (selected_outcome handler level r w e Hsel)
    as [(_ & c0 & _ & Hw0 & Hs0 & Ht0 & Hrun)|(Hl & _)]; [|contradiction].
  cbn zeta in Ht0, Hrun.
  destruct (ServeHTTP_split e handler c0 Hw0 Hs0)
    as (mid1 & mid2 & Ht & Hr1 & Hl1 & Hc2 & Hparts & Hoff & Hon).
  eexists _, mid1, mid2. split; [exact Hrun|]. simpl.
  assert (Htr : (trace (ServeHTTP DetectContentType handler c0)
                 ++ [CodecClose e; PoolPut e (poolIndex e (normalizeLevel level))])%list
    = (rw_trace w ++ [PoolGet e (poolIndex e (normalizeLevel level));
                      CodecReset e OrigWriter]
       ++ mid1 ++ mid2
       ++ [CodecClose e; PoolPut e (poolIndex e (normalizeLevel level))])%list).
  { rewrite Ht, Ht0, <- !app_assoc. reflexivity. }
  split; [exact Htr|]. split; [exact Hr1|]. split; [exact Hl1|].
  split; [exact Hc2|]. split; [exact Hparts|].
  rewrite Htr, !lastSink_app. simpl. rewrite Hl1. split.
  - intros Hf. rewrite (Hoff Hf) in *. simpl in *.
    rewrite app_nil_r in Hparts. split; [reflexivity|]. split; [congruence|].
    destruct (lastSink (rw_trace w)); reflexivity.
  - intros Hy. destruct (Hon Hy) as [Hex Hl2]. rewrite Hl2.
    split; [exact Hex|reflexivity].
Qed.

(** X17. When no token of the Accept-Encoding value is gzip or deflate,
    at any level, NoCompression included, the middleware is transparent:
    the request completes, and header and calls are exactly those of the
    handler run on the original writer. *)
Theorem unsupported_encoding_transparent (handler : list Action) (level : Z)
    (r : Request) (w : ResponseWriter) :
  (∀ tok, tok ∈ Split (Header_Get (req_Header r) "Accept-Encoding") "," →
          ¬ supported tok) →
  ∃ c, CompressHandlerLevel DetectContentType handler level r w = Done c
    ∧ header c = rw_header (runOn handler w)
    ∧ trace c = rw_trace (runOn handler w)
    ∧ wrapped c = None.
Proof.
  intros Hno. pose proof (scan_unsupported (normalizeLevel level) _ (enter w) Hno) as Hs.
  exists (serveDirect handler (enter w)).
  split; [apply CompressHandlerLevel_none, Hs|].
  destruct (serveDirect_runOn handler (enter w) w eq_refl eq_refl) as [Hh Ht].
  split; [exact Hh|]. split; [exact Ht|].
  destruct (ServeHTTP_frame DetectContentType handler (enter w)) as [Hwr _].
  rewrite ServeHTTP_unwrapped in Hwr by reflexivity. exact Hwr.
Qed.

Lemma ServeHTTP_no_writes (e : Encoding) (key : string)
    (handler : list Action) (c : State) :
  wrapped c = Some e → writesOf handler = [] → key ≠ "Content-Length" →
  forallb (λ a, negb (touches key a)) handler = true →
  header (ServeHTTP DetectContentType handler c) !! key = header c !! key
  ∧ isStream (ServeHTTP DetectContentType handler c) = isStream c.
Proof.
  revert c. induction handler as [|a rest IH]; intros c Hw Hnw Hk Hall; [done|].
  simpl in Hall. apply andb_true_iff in Hall as [Ha Hrest].
  assert (Hw1 : wrapped (step DetectContentType a c) = Some e).
  { destruct (step_frame DetectContentType a c) as [-> _]. exact Hw. }
  change (ServeHTTP DetectContentType (a :: rest) c)
    with (ServeHTTP DetectContentType rest (step DetectContentType a c)).
  assert (Hstep : header (step DetectContentType a c) !! key = header c !! key
                  ∧ isStream (step DetectContentType a c) = isStream c
                  ∧ writesOf rest = []).
  { unfold step. rewrite Hw.
    assert (Hd : header (direct a c) !! key = header c !! key).
    { apply direct_header_other. destruct (touches key a); [discriminate|reflexivity]. }
    destruct a as [k v|k v|k|code|b|t o]; simpl hooked; simpl in Hnw;
      try (split; [exact Hd|split; [reflexivity|exact Hnw]]).
    - unfold hookWriteHeader, emit, setHeader. cbn [header isStream].
      unfold Header_Del. rewrite lookup_delete_ne by congruence. done.
    - discriminate Hnw.
    - destruct e; [split; [exact Hd|split; [reflexivity|exact Hnw]]|].
      rewrite hookPush_state. done. }
  destruct Hstep as (Hh & Hs & Hnw').
  destruct (IH _ Hw1 Hnw' Hk Hrest) as [-> ->]. done.
Qed.

(** X18. A handler that writes no chunk and leaves Content-Encoding alone
    still gets a response that announces the selected encoding: the
    streaming flag is never set, Content-Encoding keeps the value the
    middleware gave it, the codec receives nothing, and it is closed
    while set to the original writer. *)
Theorem bodiless_response_keeps_encoding (handler : list Action) (level : Z)
    (r : Request) (w : ResponseWriter) (e : Encoding) :
  selects (normalizeLevel level)
    (Split (Header_Get (req_Header r) "Accept-Encoding") ",") (enter w) e →
  level ≠ gzip.NoCompression →
  writesOf handler = [] →
  forallb (λ a, negb (touches "Content-Encoding" a)) handler = true →
  ∃ c,
    CompressHandlerLevel DetectContentType handler level r w = Done c
    ∧ header c !! "Content-Encoding" = Some [encodingName e]
    ∧ isStream c = false
    ∧ codecWrites (trace c) = codecWrites (rw_trace w)
    ∧ rawWrites (trace c) = rawWrites (rw_trace w)
    ∧ lastSink (trace c) = Some OrigWriter.
Proof.
  intros Hsel Hne Hnw Hall.
  destruct (selected_run handler level r w e Hsel Hne)
    as (c0 & Hcase & Hw0 & Hs0 & _ & Ht0 & Hrun).
  destruct (ServeHTTP_no_writes e "Content-Encoding" handler c0 Hw0 Hnw
              ltac:(done) Hall) as [Hh Hs].
  destruct (ServeHTTP_adds e handler c0 Hw0)
    as (mid & Ht & _ & _ & Hparts & _ & _ & Hoff & _).
  rewrite Hs, Hs0 in Hoff. destruct (Hoff eq_refl) as [Hr Hl].
  rewrite Hnw, Hr, app_nil_r in Hparts.
  eexists. split; [exact Hrun|]. simpl.
  split.
  { rewrite Hh. destruct (encCase_header e (normalizeLevel level) (enter w)) as [Hce _].
    rewrite Hcase in Hce. exact Hce. }
  split; [congruence|].
  rewrite Ht, Ht0, !codecWrites_app, !rawWrites_app, !lastSink_app, Hl, <- Hparts, Hr.
  simpl. rewrite !app_nil_r.
  split; [reflexivity|]. split; [reflexivity|].
  destruct (lastSink (rw_trace w)); reflexivity.
Qed.

(** X19. An error response written by JSONError, without extra header
    maps, through the writer decorated for an encoding is compressed:
    unless the streaming flag is already set or Transfer-Encoding is
    chunked, the status is forwarded once, the body goes into the codec,
    the flag stays off, Content-Length is absent and the Content-Type is
    the JSON one. *)
Theorem JSONError_is_compressed (quote : string → string) (e : Encoding)
    (msg : string) (code : Z) (c : State) :
  wrapped c = Some e → isStream c = false →
  Header_Get (header c) "Transfer-Encoding" ≠ "chunked" →
  let c' := ServeHTTP DetectContentType (JSONError_calls quote msg code []) c in
  trace c'
  = (trace c
     ++ [WriteHeaderCall (if (code >? 0)%Z then code
                          else http.StatusInternalServerError);
         CodecWrite e (list_byte_of_string (JSONError_body quote msg code))])%list
  ∧ isStream c' = false
  ∧ header c' !! "Content-Length" = None
  ∧ header c' !! "Content-Type" = Some ["application/json; charset=utf-8"].
Proof.
  intros Hw Hs Hte c'. subst c'.
  set (body := list_byte_of_string (JSONError_body quote msg code)).
  set (status := if (code >? 0)%Z then code else http.StatusInternalServerError).
  set (c3 := hookWriteHeader status
               (setHeader
                  (Header_Set
                     (Header_Set (header c) "Content-Type"
                        "application/json; charset=utf-8")
                     "X-Content-Type-Options" "nosniff") c)).
  assert (Hstep : ∀ a c', wrapped c' = Some e →
            step DetectContentType a c' = hooked DetectContentType e a c').
  { intros a c' H. unfold step. rewrite H. reflexivity. }
  assert (Hrun : ServeHTTP DetectContentType (JSONError_calls quote msg code []) c
                 = hookWrite DetectContentType e body c3).
  { unfold JSONError_calls, ServeHTTP. simpl foldl.
    repeat match goal with
           | |- context [step DetectContentType ?a ?c'] => rewrite (Hstep a c' Hw)
           end.
    reflexivity. }
  assert (Hh3 : header c3
    = Header_Del (Header_Set (Header_Set (header c) "Content-Type"
                    "application/json; charset=utf-8")
                    "X-Content-Type-Options" "nosniff") "Content-Length")
    by reflexivity.
  assert (Ht3 : trace c3 = (trace c ++ [WriteHeaderCall status])%list)
    by reflexivity.
  assert (Hs3 : isStream c3 = isStream c) by reflexivity.
  assert (Hct : header c3 !! "Content-Type"
                = Some ["application/json; charset=utf-8"]).
  { rewrite Hh3. unfold Header_Del, Header_Set.
    rewrite lookup_delete_ne by done. rewrite lookup_insert_ne by done.
    apply lookup_insert_eq. }
  assert (Hens : ensureContentType DetectContentType body (header c3) = header c3).
  { unfold ensureContentType, Header_Get. rewrite Hct. reflexivity. }
  assert (Hn : ¬ streamingCondition DetectContentType body c3).
  { unfold streamingCondition. rewrite Hens. unfold Header_Get at 1.
    rewrite Hct, Hs3. intros [H|[H|H]].
    - congruence.
    - vm_compute in H. discriminate.
    - apply Hte. rewrite <- H, Hh3. unfold Header_Get, Header_Del, Header_Set.
      rewrite lookup_delete_ne by done. rewrite !lookup_insert_ne by done.
      reflexivity. }
  rewrite Hrun, hookWrite_buffered by exact Hn. rewrite Hens.
  unfold emit, setHeader. cbn [trace isStream header].
  rewrite Ht3, Hs3, <- app_assoc.
  split; [reflexivity|]. split; [exact Hs|].
  unfold Header_Del at 1 2.
  split; [apply lookup_delete_eq|].
  rewrite lookup_delete_ne by done. exact Hct.
Qed.

End CompressFacts.

(** X20. The guard of RecoverRendered marks "nothing sent yet" by -1 in
    an int32. A status code that becomes -1 when converted to int32 is
    forwarded without closing the guard: the request goes on as if the
    middleware had been entered afresh on the writer that received the
    code, so the WriteHeader call after it is forwarded as well. *)
Theorem RecoverRendered_sentinel_collision (quote : string → string)
    (renderPanic : option PanicRenderer) (code code' : Z) (next : list Action)
    (panic : option PanicValue) (stack : string) (w : ResponseWriter) :
  wrap32 code = (-1)%Z →
  RecoverRendered quote renderPanic (AWriteHeader code :: next) panic stack w
  = RecoverRendered quote renderPanic next panic stack (callOn (AWriteHeader code) w)
  ∧ headerCodes (rw_trace (rs_writer
      (RecoverRendered quote renderPanic [AWriteHeader code; AWriteHeader code']
         None stack w)))
    = (headerCodes (rw_trace w) ++ [code; code'])%list.
Proof.
  intros Hc. unfold RecoverRendered, recoverRun. simpl. rewrite Hc.
  split; [reflexivity|]. simpl.
  rewrite !headerCodes_app, <- app_assoc. done.
Qed.

(** ** Concrete instances of the properties above *)

(** Two errors built from the same code and body. *)
Lemma error_message_injective_witness :
  option_map errorMessage (Error 404 "Not Found")
  = option_map errorMessage (Error 404 "Not Found")
  ∧ (404 = 404 ∧ "Not Found" = "Not Found").
Proof.
  split; [reflexivity|].
  exact (error_message_injective 404 404 "Not Found" "Not Found" eq_refl).
Defined.

(** A JSON array with white space around it is returned trimmed. *)
Lemma RequireJSONBody_body_trimmed_witness :
  (RequireJSONBody emptyWriter jsonRequest (ReadOK "  [1,2] ")).1.1 = Some "[1,2]"
  ∧ (TrimSpace "[1,2]" = "[1,2]"
     ∧ startsSpace (list_ascii_of_string "[1,2]") = false
     ∧ endsSpaceRev (rev (list_ascii_of_string "[1,2]")) = false
     ∧ (3 ≤ String.length "[1,2]")%nat).
Proof.
  split; [reflexivity|].
  exact (RequireJSONBody_body_trimmed emptyWriter jsonRequest
           (ReadOK "  [1,2] ") "[1,2]" eq_refl).
Defined.

(** The empty JSON object is refused as a missing body. *)
Lemma RequireJSONBody_short_body_witness :
  String.prefix ContentTypeJSON (Header_Get (req_Header jsonRequest) "Content-Type")
  = true
  ∧ (String.length (TrimSpace "{}") < 3)%nat
  ∧ RequireJSONBody emptyWriter jsonRequest (ReadOK "{}")
    = (None, Some (foreignError "request body is required"),
       rwWriteHeader http.StatusBadRequest emptyWriter).
Proof.
  assert (Hct : String.prefix ContentTypeJSON
                  (Header_Get (req_Header jsonRequest) "Content-Type") = true)
    by reflexivity.
  assert (Hlen : (String.length (TrimSpace "{}") < 3)%nat) by (vm_compute; lia).
  split; [exact Hct|]. split; [exact Hlen|].
  exact (RequireJSONBody_short_body emptyWriter jsonRequest "{}" Hct Hlen).
Defined.

(** A POST request checked against GET and HEAD. *)
Lemma AllowMethods_allow_lists_methods_witness :
  (req_Method jsonRequest ∉ ["GET"; "HEAD"])
  ∧ (∃ allow,
      last (values (rw_header (AllowMethods ["GET"; "HEAD"] emptyWriter jsonRequest).2)
              "Allow") = Some allow
      ∧ Split allow "," = ["GET"; "HEAD"]).
Proof.
  assert (Hn : req_Method jsonRequest ∉ ["GET"; "HEAD"]).
  { intros Hin. apply methodMatched_elem in Hin. discriminate Hin. }
  split; [exact Hn|].
  apply (AllowMethods_allow_lists_methods ["GET"; "HEAD"] emptyWriter jsonRequest Hn).
  - discriminate.
  - repeat constructor.
Defined.

(** A handler that commits 200, writes, commits 404 and then panics. *)
Lemma RecoverRendered_single_commit_witness :
  Forall (λ code, wrap32 code ≠ (-1)%Z)
    (codesOf ([AWriteHeader 200; AWrite hello; AWriteHeader 404]
              ++ panicCalls quotePlain None (Some PanicOther) "stack"))
  ∧ headerCodes (rw_trace (rs_writer
      (RecoverRendered quotePlain None [AWriteHeader 200; AWrite hello; AWriteHeader 404]
         (Some PanicOther) "stack" emptyWriter)))
    = (headerCodes (rw_trace emptyWriter)
       ++ take 1 (codesOf ([AWriteHeader 200; AWrite hello; AWriteHeader 404]
                           ++ panicCalls quotePlain None (Some PanicOther) "stack")))%list.
Proof.
  assert (Hok : Forall (λ code, wrap32 code ≠ (-1)%Z)
    (codesOf ([AWriteHeader 200; AWrite hello; AWriteHeader 404]
              ++ panicCalls quotePlain None (Some PanicOther) "stack"))).
  { change (Forall (λ code, wrap32 code ≠ (-1)%Z) [200; 404; 500]%Z).
    repeat (constructor; [intros H; vm_compute in H; discriminate H|]).
    constructor. }
  split; [exact Hok|].
  exact (RecoverRendered_single_commit quotePlain None
           [AWriteHeader 200; AWrite hello; AWriteHeader 404]
           (Some PanicOther) "stack" emptyWriter Hok).
Defined.

(** A handler that commits 200, writes, and panics with a value that is
    not an error. *)
Lemma Recover_after_panic_witness :
  Forall (λ code, wrap32 code ≠ (-1)%Z) (codesOf [AWriteHeader 200; AWrite hello])
  ∧ headerCodes (rw_trace (rs_writer
      (Recover quotePlain [AWriteHeader 200; AWrite hello] (Some PanicOther)
         "stack" emptyWriter))) = [200%Z]
  ∧ rawWrites (rw_trace (rs_writer
      (Recover quotePlain [AWriteHeader 200; AWrite hello] (Some PanicOther)
         "stack" emptyWriter)))
    = [hello;
       list_byte_of_string
         (JSONError_body quotePlain "Internal Server Error"
            http.StatusInternalServerError)]
  ∧ rw_header (rs_writer
      (Recover quotePlain [AWriteHeader 200; AWrite hello] (Some PanicOther)
         "stack" emptyWriter)) !! "Content-Type"
    = Some ["application/json; charset=utf-8"].
Proof.
  assert (Hok : Forall (λ code, wrap32 code ≠ (-1)%Z)
                  (codesOf [AWriteHeader 200; AWrite hello])).
  { change (Forall (λ code, wrap32 code ≠ (-1)%Z) [200%Z]).
    repeat (constructor; [intros H; vm_compute in H; discriminate H|]).
    constructor. }
  split; [exact Hok|].
  exact (Recover_after_panic quotePlain [AWriteHeader 200; AWrite hello]
           PanicOther "stack" emptyWriter Hok).
Defined.

(** One chunk written under gzip at level 6. *)
Lemma compressed_response_pool_discipline_witness :
  selects (normalizeLevel 6)
    (Split (Header_Get (req_Header (requestAccepting "gzip")) "Accept-Encoding") ",")
    (enter emptyWriter) Gzip
  ∧ ∃ c mid index,
      CompressHandlerLevel sniffOctet [AWrite hello] 6 (requestAccepting "gzip")
        emptyWriter = Done c
      ∧ trace c = (rw_trace emptyWriter ++ [PoolGet Gzip index; CodecReset Gzip OrigWriter]
                   ++ mid ++ [CodecClose Gzip; PoolPut Gzip index])%list
      ∧ (0 ≤ index < Z.of_nat (length gzipWriterPools))%Z
      ∧ poolAt gzipWriterPools index = Some (normalizeLevel 6)
      ∧ countEv isPoolGet mid = 0%nat
      ∧ countEv isPoolPut mid = 0%nat.
Proof.
  assert (Hsel : selects (normalizeLevel 6)
    (Split (Header_Get (req_Header (requestAccepting "gzip")) "Accept-Encoding") ",")
    (enter emptyWriter) Gzip) by reflexivity.
  split; [exact Hsel|].
  apply (compressed_response_pool_discipline sniffOctet [AWrite hello] 6
           (requestAccepting "gzip") emptyWriter Gzip Hsel).
  discriminate.
Defined.

(** A chunk into the codec, then a response that turns into an event
    stream: the second chunk goes out directly. *)
Lemma compressed_response_chunks_witness :
  selects (normalizeLevel 6)
    (Split (Header_Get (req_Header (requestAccepting "gzip")) "Accept-Encoding") ",")
    (enter emptyWriter) Gzip
  ∧ ∃ c mid1 mid2,
      CompressHandlerLevel sniffOctet
        [AWrite hello; ASet "Content-Type" "text/event-stream"; AWrite hello] 6
        (requestAccepting "gzip") emptyWriter = Done c
      ∧ trace c = (rw_trace emptyWriter
                   ++ [PoolGet Gzip (poolIndex Gzip (normalizeLevel 6));
                       CodecReset Gzip OrigWriter]
                   ++ mid1 ++ mid2
                   ++ [CodecClose Gzip;
                       PoolPut Gzip (poolIndex Gzip (normalizeLevel 6))])%list
      ∧ rawWrites mid1 = [] ∧ lastSink mid1 = None
      ∧ codecWrites mid2 = []
      ∧ writesOf [AWrite hello; ASet "Content-Type" "text/event-stream"; AWrite hello]
        = (codecWrites mid1 ++ rawWrites mid2)%list
      ∧ (isStream c = false →
           mid2 = []
           ∧ codecWrites mid1
             = writesOf [AWrite hello; ASet "Content-Type" "text/event-stream";
                         AWrite hello]
           ∧ lastSink (trace c) = Some OrigWriter)
      ∧ (isStream c = true →
           (∃ b rest, mid2 = CodecReset Gzip Discard :: WriteCall b :: rest)
           ∧ lastSink (trace c) = Some Discard).
Proof.
  assert (Hsel : selects (normalizeLevel 6)
    (Split (Header_Get (req_Header (requestAccepting "gzip")) "Accept-Encoding") ",")
    (enter emptyWriter) Gzip) by reflexivity.
  split; [exact Hsel|].
  apply (compressed_response_chunks sniffOctet
           [AWrite hello; ASet "Content-Type" "text/event-stream"; AWrite hello] 6
           (requestAccepting "gzip") emptyWriter Gzip Hsel).
  discriminate.
Defined.

(** A client that accepts only encodings the middleware does not have,
    at the level that has no pool. *)
Lemma unsupported_encoding_transparent_witness :
  (∀ tok,
     tok ∈ Split (Header_Get (req_Header (requestAccepting "br, identity"))
                    "Accept-Encoding") "," →
     ¬ supported tok)
  ∧ ∃ c, CompressHandlerLevel sniffOctet [AWrite hello] gzip.NoCompression
           (requestAccepting "br, identity") emptyWriter = Done c
      ∧ header c = rw_header (runOn [AWrite hello] emptyWriter)
      ∧ trace c = rw_trace (runOn [AWrite hello] emptyWriter)
      ∧ wrapped c = None.
Proof.
  assert (Hno : ∀ tok,
     tok ∈ Split (Header_Get (req_Header (requestAccepting "br, identity"))
                    "Accept-Encoding") "," →
     ¬ supported tok).
  { intros tok Hin.
    change (tok ∈ ["br"; " identity"]) in Hin.
    apply elem_of_cons in Hin as [->|Hin];
      [|apply elem_of_cons in Hin as [->|Hin]; [|inversion Hin]];
      intros [H|H]; vm_compute in H; discriminate H. }
  split; [exact Hno|].
  exact (unsupported_encoding_transparent sniffOctet [AWrite hello]
           gzip.NoCompression (requestAccepting "br, identity") emptyWriter Hno).
Defined.

(** A 304 answer under deflate. *)
Lemma bodiless_response_keeps_encoding_witness :
  selects (normalizeLevel (-1))
    (Split (Header_Get (req_Header (requestAccepting "deflate")) "Accept-Encoding") ",")
    (enter emptyWriter) Deflate
  ∧ writesOf [AWriteHeader 304] = []
  ∧ forallb (λ a, negb (touches "Content-Encoding" a)) [AWriteHeader 304] = true
  ∧ ∃ c,
      CompressHandlerLevel sniffOctet [AWriteHeader 304] (-1)
        (requestAccepting "deflate") emptyWriter = Done c
      ∧ header c !! "Content-Encoding" = Some [encodingName Deflate]
      ∧ isStream c = false
      ∧ codecWrites (trace c) = codecWrites (rw_trace emptyWriter)
      ∧ rawWrites (trace c) = rawWrites (rw_trace emptyWriter)
      ∧ lastSink (trace c) = Some OrigWriter.
Proof.
  assert (Hsel : selects (normalizeLevel (-1))
    (Split (Header_Get (req_Header (requestAccepting "deflate")) "Accept-Encoding") ",")
    (enter emptyWriter) Deflate) by reflexivity.
  split; [exact Hsel|]. split; [reflexivity|]. split; [reflexivity|].
  apply (bodiless_response_keeps_encoding sniffOctet [AWriteHeader 304] (-1)
           (requestAccepting "deflate") emptyWriter Deflate Hsel);
    [discriminate|reflexivity|reflexivity].
Defined.

(** A JSON error written right after the gzip case has run. *)
Lemma JSONError_is_compressed_witness :
  wrapped (stateOf (gzipCase (-1) (enter emptyWriter))) = Some Gzip
  ∧ isStream (stateOf (gzipCase (-1) (enter emptyWriter))) = false
  ∧ trace (ServeHTTP sniffOctet (JSONError_calls quotePlain "boom" 0 [])
             (stateOf (gzipCase (-1) (enter emptyWriter))))
    = (trace (stateOf (gzipCase (-1) (enter emptyWriter)))
       ++ [WriteHeaderCall http.StatusInternalServerError;
           CodecWrite Gzip (list_byte_of_string (JSONError_body quotePlain "boom" 0))])%list
  ∧ isStream (ServeHTTP sniffOctet (JSONError_calls quotePlain "boom" 0 [])
                (stateOf (gzipCase (-1) (enter emptyWriter)))) = false
  ∧ header (ServeHTTP sniffOctet (JSONError_calls quotePlain "boom" 0 [])
                (stateOf (gzipCase (-1) (enter emptyWriter)))) !! "Content-Length" = None
  ∧ header (ServeHTTP sniffOctet (JSONError_calls quotePlain "boom" 0 [])
                (stateOf (gzipCase (-1) (enter emptyWriter)))) !! "Content-Type"
    = Some ["application/json; charset=utf-8"].
Proof.
  split; [reflexivity|]. split; [reflexivity|].
  apply (JSONError_is_compressed sniffOctet quotePlain Gzip "boom" 0
           (stateOf (gzipCase (-1) (enter emptyWriter))) eq_refl eq_refl).
  intros H. vm_compute in H. discriminate H.
Defined.

(** The code 4294967295 is -1 as an int32. *)
Lemma RecoverRendered_sentinel_collision_witness :
  wrap32 4294967295 = (-1)%Z
  ∧ RecoverRendered quotePlain None [AWriteHeader 4294967295; AWrite hello]
      (Some PanicOther) "stack" emptyWriter
    = RecoverRendered quotePlain None [AWrite hello] (Some PanicOther) "stack"
        (callOn (AWriteHeader 4294967295) emptyWriter)
  ∧ headerCodes (rw_trace (rs_writer
      (RecoverRendered quotePlain None [AWriteHeader 4294967295; AWriteHeader 200]
         None "stack" emptyWriter)))
    = (headerCodes (rw_trace emptyWriter) ++ [4294967295%Z; 200%Z])%list.
Proof.
  split; [reflexivity|].
  exact (RecoverRendered_sentinel_collision quotePlain None 4294967295 200
           [AWrite hello] (Some PanicOther) "stack" emptyWriter eq_refl).
Defined.

(** Two header fields, one of them under a key that is not canonical,
    visited in the order opposite to their insertion. *)
Lemma JSONError_order_irrelevant_witness :
  Forall2 (λ kvs h, kvs ≡ₚ map_to_list h)
    [[("x-b", ["2"]); ("X-A", ["1"])]]
    [<["x-b" := ["2"]]> {["X-A" := ["1"]]} : Header]
  ∧ Forall (λ h : Header, NoDup (map canonicalPlain (map_to_list h).*1))
      [<["x-b" := ["2"]]> {["X-A" := ["1"]]} : Header]
  ∧ runOn (JSONError_calls quotePlain "boom" 500
             (map (canonicalEntries canonicalPlain)
                [[("x-b", ["2"]); ("X-A", ["1"])]]))
      emptyWriter
    = runOn (JSONError quotePlain canonicalPlain "boom" 500
               [<["x-b" := ["2"]]> {["X-A" := ["1"]]} : Header])
        emptyWriter
  ∧ (∀ k1 k2 v1 v2 : string,
       k1 ≠ k2 →
       canonicalPlain k1 = canonicalPlain k2 →
       canonicalPlain k1 ≠ "Content-Type" →
       canonicalPlain k1 ≠ "X-Content-Type-Options" →
       v1 ≠ v2 →
       rw_header (runOn (JSONError_calls quotePlain "boom" 500
         [canonicalEntries canonicalPlain [(k1, [v1]); (k2, [v2])]]) emptyWriter)
       ≠ rw_header (runOn (JSONError_calls quotePlain "boom" 500
         [canonicalEntries canonicalPlain [(k2, [v2]); (k1, [v1])]]) emptyWriter)).
Proof.
  assert (Hord : Forall2 (λ kvs h, kvs ≡ₚ map_to_list h)
    [[("x-b", ["2"]); ("X-A", ["1"])]]
    [<["x-b" := ["2"]]> {["X-A" := ["1"]]} : Header]).
  { constructor; [|constructor].
    symmetry. etrans; [apply map_to_list_insert; reflexivity|].
    rewrite map_to_list_singleton. reflexivity. }
  assert (Hkeys : Forall (λ h : Header, NoDup (map canonicalPlain (map_to_list h).*1))
    [<["x-b" := ["2"]]> {["X-A" := ["1"]]} : Header]).
  { constructor; [|constructor].
    apply (bool_decide_unpack _). vm_compute. exact I. }
  split; [exact Hord|]. split; [exact Hkeys|].
  exact (JSONError_order_irrelevant quotePlain canonicalPlain "boom" 500 _ _
           emptyWriter Hord Hkeys).
Defined.

(** A response under gzip whose handler writes a chunk, declares an
    event stream, and writes two more chunks; the write looked at is the
    second one. *)
Lemma streaming_flag_sticky_witness :
  selects (normalizeLevel 6)
    (Split (Header_Get (req_Header (requestAccepting "gzip")) "Accept-Encoding") ",")
    (enter emptyWriter) Gzip
  ∧ ∃ c0 : State,
      header c0 = announced Gzip (rw_header emptyWriter)
      ∧ wrapped c0 = Some Gzip ∧ isStream c0 = false
      ∧ let c1 := ServeHTTP sniffOctet
                    [AWrite hello; ASet "Content-Type" "text/event-stream"] c0 in
        let c2 := ServeHTTP sniffOctet [AWrite hello] c1 in
        let c3 := ServeHTTP sniffOctet [AWrite hello] c2 in
        CompressHandlerLevel sniffOctet
          ([AWrite hello; ASet "Content-Type" "text/event-stream"]
           ++ AWrite hello :: [AWrite hello]) 6 (requestAccepting "gzip") emptyWriter
        = Done (emit [CodecClose Gzip; PoolPut Gzip (poolIndex Gzip (normalizeLevel 6))] c3)
        ∧ (isStream c2 = true ↔ classifiedStreaming sniffOctet hello c1)
        ∧ (classifiedStreaming sniffOctet hello c1 →
             header c2 !! "Content-Encoding" = None
             ∧ header c2 !! "Vary" = None
             ∧ trace c2 = (trace c1 ++ [CodecReset Gzip Discard; WriteCall hello])%list
             ∧ isStream c3 = true
             ∧ rawWrites (trace c3)
               = (rawWrites (trace c1) ++ hello :: writesOf [AWrite hello])%list
             ∧ countEv isCodecWrite (trace c3) = countEv isCodecWrite (trace c1))
        ∧ (¬ classifiedStreaming sniffOctet hello c1 →
             isStream c2 = false
             ∧ trace c2 = (trace c1 ++ [CodecWrite Gzip hello])%list).
Proof.
  assert (Hsel : selects (normalizeLevel 6)
    (Split (Header_Get (req_Header (requestAccepting "gzip")) "Accept-Encoding") ",")
    (enter emptyWriter) Gzip) by reflexivity.
  split; [exact Hsel|].
  apply (streaming_flag_sticky sniffOctet
           [AWrite hello; ASet "Content-Type" "text/event-stream"] [AWrite hello]
           hello 6 (requestAccepting "gzip") emptyWriter Gzip Hsel).
  discriminate.
Defined.

